(** * SEYA API: a shallow embedding of [main.py] and [schemas.py]

    The HTTP handlers of [main.py] are translated into functions over an
    explicit model of their collaborators: the document store behind the
    global [db] handle, the process environment, and the payment processor.
    Python dictionaries are finite maps with string keys, the documents of a
    collection are kept in insertion order, and a handler either returns a
    JSON value, raises [HTTPException], or lets another exception escape
    (which the framework answers with status 500). *)

From Stdlib Require Import ZArith Ascii PrimFloat FloatOps SpecFloat.
From stdpp Require Import gmap strings list sorting.

Set Warnings "-register-all,-inexact-float,-clear-no-such-hyp".

(** ** Identifiers *)

(** A [bson.ObjectId] is twelve bytes; it is kept as the number those bytes
    spell in big-endian order, which is also the order the store sorts by. *)
Definition ObjectId := N.

Definition hex_digits : list ascii :=
  ["0"; "1"; "2"; "3"; "4"; "5"; "6"; "7"; "8"; "9"; "a"; "b"; "c"; "d"; "e"; "f"]%char.

Definition hex_digit (n : N) : ascii := nth (N.to_nat n) hex_digits "0"%char.

Fixpoint to_hex (digits : nat) (n : N) : string :=
  match digits with
  | O => ""
  | S d => to_hex d (n / 16) +:+ String (hex_digit (n mod 16)) ""
  end.

(** [str(ObjectId)]: 24 lower-case hexadecimal digits. *)
Definition ObjectId_str (o : ObjectId) : string := to_hex 24 o.
Arguments ObjectId_str o%_N.

Definition hex_value (c : ascii) : option N :=
  let n := N_of_ascii c in
  if (48 <=? n)%N && (n <=? 57)%N then Some (n - 48)%N
  else if (97 <=? n)%N && (n <=? 102)%N then Some (n - 87)%N
  else if (65 <=? n)%N && (n <=? 70)%N then Some (n - 55)%N
  else None.

Fixpoint of_hex (acc : N) (s : string) : option N :=
  match s with
  | EmptyString => Some acc
  | String c s' =>
      match hex_value c with
      | Some d => of_hex (acc * 16 + d)%N s'
      | None => None
      end
  end.

(** ** JSON-like values and documents *)

Inductive value :=
  | VNull
  | VBool (b : bool)
  | VInt (z : Z)
  | VFloat (f : float)
  | VStr (s : string)
  | VOid (o : ObjectId)
  | VList (l : list value)
  | VDoc (d : gmap string value).

Arguments VOid o%_N.
Arguments VInt z%_Z.
Arguments VFloat f%_float.

(** A Python [dict] with string keys. *)
Abbreviation document := (gmap string value).

(** ** Outcome of a handler *)

Inductive result (A : Type) :=
  | Ok (a : A)
  | HTTPException (status_code : Z) (detail : string)
  | Unhandled (exc : string).
Arguments Ok {A} a.
Arguments HTTPException {A} status_code detail.
Arguments Unhandled {A} exc.

(** The status line the client sees: 200 for a normal return, the code of a
    raised [HTTPException], 500 for any exception that escapes the handler. *)
Definition status {A} (r : result A) : Z :=
  match r with
  | Ok _ => 200
  | HTTPException c _ => c
  | Unhandled _ => 500
  end.

(** Python truthiness of an [Optional[str]]: [None] and [""] are falsy. *)
Definition truthy (s : option string) : bool :=
  match s with
  | Some (String _ _) => true
  | _ => false
  end.

(** ** Schemas ([schemas.py])

    Only the models that reach a collection are embedded: [Product] (with its
    [Variant]s), [BlogPost] and [Message].  Each [Literal] becomes an
    enumeration, each model a record in a module of its name. *)

Inductive ProductCategory := Hoodies | Tees | Pantalons | Accessoires.
Inductive BlogCategory := Drops | Collabs | Conseils.
Inductive MessageSource := Contact | Newsletter.

Definition ProductCategory_str (c : ProductCategory) : string :=
  match c with
  | Hoodies => "Hoodies" | Tees => "Tees"
  | Pantalons => "Pantalons" | Accessoires => "Accessoires"
  end.

Definition BlogCategory_str (c : BlogCategory) : string :=
  match c with Drops => "drops" | Collabs => "collabs" | Conseils => "conseils" end.

Definition MessageSource_str (c : MessageSource) : string :=
  match c with Contact => "contact" | Newsletter => "newsletter" end.

Module Variant.
Record t := mk {
  sku : string;
  size : option string;
  color : option string;
  stock : Z;
  price : option float }.
End Variant.

Module Product.
Record t := mk {
  title : string;
  description : option string;
  price : float;
  category : ProductCategory;
  images : list string;
  tags : list string;
  variants : list Variant.t;
  active : bool }.
End Product.

Module BlogPost.
Record t := mk {
  title : string;
  slug : string;
  content : string;
  category : BlogCategory;
  cover_image : option string;
  published : bool }.
End BlogPost.

Module Message.
Record t := mk {
  name : string;
  email : string;
  subject : string;
  message : string;
  source : MessageSource }.
End Message.

(** A validated record of any of the stored models. *)
Inductive Model :=
  | MProduct (p : Product.t)
  | MBlogPost (b : BlogPost.t)
  | MMessage (m : Message.t).

Definition opt_value {A} (f : A → value) (o : option A) : value :=
  match o with Some a => f a | None => VNull end.

Definition Variant_dump (v : Variant.t) : value :=
  VDoc (list_to_map
    [("sku", VStr (Variant.sku v));
     ("size", opt_value VStr (Variant.size v));
     ("color", opt_value VStr (Variant.color v));
     ("stock", VInt (Variant.stock v));
     ("price", opt_value VFloat (Variant.price v))]).

(** [model_dump()]: the record as a dictionary, one key per field. *)
Definition model_dump (m : Model) : document :=
  match m with
  | MProduct p =>
      list_to_map
        [("title", VStr (Product.title p));
         ("description", opt_value VStr (Product.description p));
         ("price", VFloat (Product.price p));
         ("category", VStr (ProductCategory_str (Product.category p)));
         ("images", VList (VStr <$> Product.images p));
         ("tags", VList (VStr <$> Product.tags p));
         ("variants", VList (Variant_dump <$> Product.variants p));
         ("active", VBool (Product.active p))]
  | MBlogPost b =>
      list_to_map
        [("title", VStr (BlogPost.title b));
         ("slug", VStr (BlogPost.slug b));
         ("content", VStr (BlogPost.content b));
         ("category", VStr (BlogCategory_str (BlogPost.category b)));
         ("cover_image", opt_value VStr (BlogPost.cover_image b));
         ("published", VBool (BlogPost.published b))]
  | MMessage m =>
      list_to_map
        [("name", VStr (Message.name m));
         ("email", VStr (Message.email m));
         ("subject", VStr (Message.subject m));
         ("message", VStr (Message.message m));
         ("source", VStr (MessageSource_str (Message.source m)))]
  end.

(** ** The document store

    A stored document is a model record together with the identifier the
    store assigned to it; a collection keeps its documents in insertion
    order.  [online] tells whether the server answers: when it does not,
    every operation of the driver raises. *)

Record Stored := mkStored { _id : ObjectId; data : Model }.
Arguments mkStored _id%_N data.

Record Database := mkDatabase {
  collections : gmap string (list Stored);
  online : bool;
  next_id : ObjectId }.
Arguments mkDatabase collections online next_id%_N.

(** [db[name]]: a collection that was never written to is empty. *)
Definition collection (db : Database) (name : string) : list Stored :=
  default [] (collections db !! name).

(** The dictionary the driver hands back for a stored document. *)
Definition to_dict (s : Stored) : document :=
  <["_id" := VOid (_id s)]> (model_dump (data s)).

(** [insert_one]: the document gets an identifier and goes last.  Which
    identifier the driver generates is not the handlers' business; here it is
    the store's [next_id]. *)
Definition insert_one (name : string) (m : Model) (db : Database) : Database :=
  {| collections :=
       <[name := collection db name ++ [mkStored (next_id db) m]]> (collections db);
     online := online db;
     next_id := (next_id db + 1)%N |}.

(** The filters the handlers build: equality with a boolean, a string or an
    identifier, and [{"$regex": pattern, "$options": options}]. *)
Inductive cond :=
  | EqBool (b : bool)
  | EqStr (s : string)
  | EqOid (o : ObjectId)
  | Regex (pattern options : string).

Abbreviation query := (gmap string cond).

(** A cursor is a description of a query; nothing is sent before it is
    iterated ([fetch]). *)
Record Cursor := mkCursor {
  cur_docs : list Stored;
  cur_online : bool;
  cur_filter : query;
  cur_sort : option Z;
  cur_limit : nat }.

Definition find (db : Database) (name : string) (q : query) : Cursor :=
  {| cur_docs := collection db name; cur_online := online db;
     cur_filter := q; cur_sort := None; cur_limit := 0 |}.

(** [cursor.sort("_id", direction)]; the handlers sort on no other key. *)
Definition sort_id (direction : Z) (c : Cursor) : Cursor :=
  {| cur_docs := cur_docs c; cur_online := cur_online c;
     cur_filter := cur_filter c; cur_sort := Some direction;
     cur_limit := cur_limit c |}.

Definition limit (n : nat) (c : Cursor) : Cursor :=
  {| cur_docs := cur_docs c; cur_online := cur_online c;
     cur_filter := cur_filter c; cur_sort := cur_sort c; cur_limit := n |}.

Fixpoint insert_sorted (before : ObjectId → ObjectId → bool)
    (x : Stored) (l : list Stored) : list Stored :=
  match l with
  | [] => [x]
  | y :: l' =>
      if before (_id y) (_id x) then y :: insert_sorted before x l' else x :: l
  end.

(** Order by identifier: descending for direction [-1], ascending otherwise. *)
Definition sort_by_id (direction : Z) (l : list Stored) : list Stored :=
  foldr (insert_sorted (if (direction =? -1)%Z
                        then (λ a b, (b <? a)%N) else (λ a b, (a <? b)%N))) [] l.

(** A limit of [0] means no limit. *)
Definition apply_limit {A} (n : nat) (l : list A) : list A :=
  match n with O => l | S _ => take n l end.

(** ** Requests of the checkout and contact routes *)

Module ContactIn.
Record t := mk {
  name : string;
  email : string;
  subject : string;
  message : string }.
End ContactIn.

Module CartItem.
Record t := mk {
  product_id : string;
  title : string;
  quantity : Z;
  unit_price : float;
  image : option string }.
End CartItem.

Module CheckoutIn.
Record t := mk {
  items : list CartItem.t;
  currency : string;
  success_url : string;
  cancel_url : string }.
End CheckoutIn.

(** What [stripe.checkout.Session.create] is called with, and what it
    answers. *)
Record SessionParams := mkParams {
  sp_mode : string;
  sp_line_items : list document;
  sp_success_url : string;
  sp_cancel_url : string }.

Record Session := mkSession { session_id : string; session_url : string }.

(** The processor is observed through the sessions it has created so far. *)
Abbreviation Processor := (list SessionParams).

(** ** Floating point: [int(round(x))]

    A binary64 number is zero, [±m·2^e], infinite or not a number.
    [round] with one argument rounds to the nearest integer, ties to the even
    one, and raises on infinities and NaN; [int] of its result is that
    integer. *)

Definition round_half_even (m d : Z) : Z :=
  let q := (m / d)%Z in
  let r := (m mod d)%Z in
  if (2 * r <? d)%Z then q
  else if (d <? 2 * r)%Z then (q + 1)%Z
  else if Z.even q then q else (q + 1)%Z.

Definition py_round (x : float) : string + Z :=
  match Prim2SF x with
  | S754_zero _ => inr 0%Z
  | S754_finite s m e =>
      let v := match e with
               | Z0 => Z.pos m
               | Zpos k => (Z.pos m * 2 ^ Z.pos k)%Z
               | Zneg k => round_half_even (Z.pos m) (2 ^ Z.pos k)
               end in
      inr (if s then (- v)%Z else v)
  | S754_infinity _ => inl "cannot convert float infinity to integer"
  | S754_nan => inl "cannot convert float NaN to integer"
  end.

(** ** The handlers of [main.py]

    The libraries the handlers call are parameters of the embedding: which
    strings [bson.ObjectId] accepts, what [str] prints for a value that is
    neither a string nor an identifier, how the store compiles a regular
    expression, how [EmailStr] validates, and what the payment processor
    answers.  Every handler is defined, and every general theorem proved,
    for all of them. *)

Section Handlers.

(** [ObjectId(id_str)]: [None] when the constructor raises. *)
Variable bson_ObjectId : string → option ObjectId.

(** [str(v)] for the remaining kinds of value. *)
Variable str_other : value → string.

(** The store's [$regex] operator: a pattern and its options compile to a
    search over a string, or the pattern is rejected. *)
Variable re_compile : string → string → option (string → bool).

(** [EmailStr]: the error text, or the address as the model keeps it. *)
Variable EmailStr : string → string + string.

(** The processor's verdict on a request made with the given key: the text
    of the error (a failure to import the client library included), or the
    session it creates. *)
Variable stripe_backend : string → SessionParams → Processor → string + Session.

(** *** Helpers *)

Definition oid (id_str : string) : result ObjectId :=
  match bson_ObjectId id_str with
  | Some o => Ok o
  | None => HTTPException 400 "Invalid ID"
  end.

Definition py_str (v : value) : string :=
  match v with
  | VOid o => ObjectId_str o
  | VStr s => s
  | _ => str_other v
  end.

(** One turn of the loop [for k, v in list(d.items())]. *)
Definition stringify_item (d : document) (kv : string * value) : document :=
  match kv.2 with
  | VOid o => <[kv.1 := VStr (ObjectId_str o)]> d
  | _ => d
  end.

Definition serialize (doc : option document) : option document :=
  match doc with
  | None => None
  | Some doc =>
      if (size doc =? 0)%nat then Some doc
      else
        let d := doc in
        let d := match d !! "_id" with
                 | Some x => <["id" := VStr (py_str x)]> (delete "_id" d)
                 | None => d
                 end in
        Some (foldl stringify_item d (map_to_list d))
  end.

(** *** Running a query *)

Definition scalar_holds (c : cond) (v : value) : bool :=
  match c, v with
  | EqBool b, VBool b' => bool_decide (b = b')
  | EqStr s, VStr s' => bool_decide (s = s')
  | EqOid o, VOid o' => bool_decide (o = o')
  | Regex p opts, VStr s' =>
      match re_compile p opts with Some search => search s' | None => false end
  | _, _ => false
  end.

(** A condition on a field holds of its value, or, when the value is an
    array, of one of its elements; it fails when the field is missing. *)
Definition field_holds (c : cond) (field : option value) : bool :=
  match field with
  | None => false
  | Some (VList l) => existsb (scalar_holds c) l
  | Some v => scalar_holds c v
  end.

Definition cond_valid (c : cond) : bool :=
  match c with
  | Regex p opts => bool_decide (is_Some (re_compile p opts))
  | _ => true
  end.

Definition query_valid (q : query) : Prop :=
  map_Forall (λ _ c, cond_valid c = true) q.

Definition doc_matches (q : query) (d : document) : Prop :=
  map_Forall (λ k c, field_holds c (d !! k) = true) q.

#[local] Instance query_valid_dec q : Decision (query_valid q).
Proof. unfold query_valid. apply _. Defined.

#[local] Instance doc_matches_dec q d : Decision (doc_matches q d).
Proof. unfold doc_matches. apply _. Defined.

(** Iterating a cursor: the server filters, sorts, then limits. *)
Definition fetch (c : Cursor) : string + list document :=
  if negb (cur_online c) then inl "ServerSelectionTimeoutError"
  else if negb (bool_decide (query_valid (cur_filter c))) then inl "OperationFailure"
  else
    let hits := filter (λ s, doc_matches (cur_filter c) (to_dict s)) (cur_docs c) in
    let hits := match cur_sort c with
                | Some direction => sort_by_id direction hits
                | None => hits
                end in
    inr (to_dict <$> apply_limit (cur_limit c) hits).

Definition find_one (db : Database) (name : string) (q : query)
    : string + option document :=
  match fetch (limit 1 (find db name q)) with
  | inl e => inl e
  | inr docs => inr (head docs)
  end.

Definition count_documents (db : Database) (name : string) (q : query)
    : string + nat :=
  match fetch (find db name q) with
  | inl e => inl e
  | inr docs => inr (length docs)
  end.

(** Modelled from the spec: [create_document] of the [database] module, which
    is not among the sources.  It serializes the validated record and inserts
    it into the named collection, and signals a failure when there is no
    handle or the store is unreachable. *)
Definition create_document (collection_name : string) (data : Model)
    (db : option Database) : string + option Database :=
  match db with
  | None => inl "Database not available"
  | Some d =>
      if online d then inr (Some (insert_one collection_name data d))
      else inl "ServerSelectionTimeoutError"
  end.

(** *** Products *)

Definition list_products (db : option Database) (category q : option string)
    : result (list (option document)) :=
  match db with
  | None => HTTPException 500 "Database not configured"
  | Some db =>
      let filter_query : query := {["active" := EqBool true]} in
      let filter_query :=
        if truthy category
        then <["category" := EqStr (default "" category)]> filter_query
        else filter_query in
      let filter_query :=
        if truthy q
        then <["title" := Regex (default "" q) "i"]> filter_query
        else filter_query in
      let items := limit 100 (find db "product" filter_query) in
      match fetch items with
      | inl e => Unhandled e
      | inr items => Ok ((λ x, serialize (Some x)) <$> items)
      end
  end.

Definition get_product (db : option Database) (product_id : string)
    : result (option document) :=
  match db with
  | None => HTTPException 500 "Database not configured"
  | Some db =>
      match oid product_id with
      | Ok o =>
          match find_one db "product" {["_id" := EqOid o]} with
          | inl e => Unhandled e
          | inr None => HTTPException 404 "Product not found"
          | inr (Some doc) =>
              if (size doc =? 0)%nat then HTTPException 404 "Product not found"
              else Ok (serialize (Some doc))
          end
      | HTTPException c d => HTTPException c d
      | Unhandled e => Unhandled e
      end
  end.

(** *** Seeding *)

Definition demo_products : list Product.t :=
  [ Product.mk "SEYA Hoodie Noir" (Some "Hoodie premium en coton épais.")
      89 Hoodies
      ["https://images.unsplash.com/photo-1520975922203-b8ad5b1cfdf4"]
      ["nouveau"; "best"]
      [Variant.mk "HD-BLK-S" (Some "S") None 10 None;
       Variant.mk "HD-BLK-M" (Some "M") None 15 None]
      true;
    Product.mk "SEYA Tee Crème" (Some "T-shirt oversize crème.")
      39 Tees
      ["https://images.unsplash.com/photo-1512436991641-6745cdb1723f"]
      ["drop"]
      [Variant.mk "TS-CRM-M" (Some "M") None 25 None]
      true;
    Product.mk "SEYA Cargo Bleu" (Some "Cargo bleu électrique.")
      109 Pantalons
      ["https://images.unsplash.com/photo-1520975853989-5c2f5cb4831d"]
      ["limited"]
      [Variant.mk "CRG-BLU-32" (Some "32") None 8 None]
      true ].

(** The loop [for p in demo_products]: an exception of [create_document]
    escapes the handler and leaves what was inserted before it. *)
Fixpoint seed_loop (ps : list Product.t) (inserted : Z) (db : option Database)
    : result document * option Database :=
  match ps with
  | [] => (Ok {["inserted" := VInt inserted]}, db)
  | p :: ps' =>
      match create_document "product" (MProduct p) db with
      | inl e => (Unhandled e, db)
      | inr db' => seed_loop ps' (inserted + 1)%Z db'
      end
  end.

Definition seed (db : option Database) : result document * option Database :=
  match db with
  | None => (HTTPException 500 "Database not configured", db)
  | Some d =>
      match count_documents d "product" ∅ with
      | inl e => (Unhandled e, db)
      | inr count =>
          if (0 <? count)%nat
          then (Ok (<["message" := VStr "Products already exist"]>
                      {["inserted" := VInt 0]}), db)
          else seed_loop demo_products 0 db
      end
  end.

(** *** Contact *)

(** The [Message] built from the dumped payload: the four strings are
    copied, the address goes through [EmailStr], [source] takes its default. *)
Definition Message_new (payload : ContactIn.t) : string + Message.t :=
  match EmailStr (ContactIn.email payload) with
  | inl e => inl e
  | inr addr =>
      inr (Message.mk (ContactIn.name payload) addr (ContactIn.subject payload)
             (ContactIn.message payload) Contact)
  end.

Definition contact_submit (payload : ContactIn.t) (db : option Database)
    : result document * option Database :=
  match Message_new payload with
  | inl e => (HTTPException 500 e, db)
  | inr m =>
      match create_document "message" (MMessage m) db with
      | inl e => (HTTPException 500 e, db)
      | inr db' => (Ok {["status" := VStr "ok"]}, db')
      end
  end.

(** *** Blog *)

Definition list_blog (db : option Database) (category : option string)
    : result (list (option document)) :=
  match db with
  | None => HTTPException 500 "Database not configured"
  | Some db =>
      let query : query := {["published" := EqBool true]} in
      let query :=
        if truthy category
        then <["category" := EqStr (default "" category)]> query
        else query in
      let posts := limit 50 (sort_id (-1) (find db "blogpost" query)) in
      match fetch posts with
      | inl e => Unhandled e
      | inr posts => Ok ((λ x, serialize (Some x)) <$> posts)
      end
  end.

(** *** Checkout *)

(** [os.getenv]. *)
Definition getenv (environ : gmap string string) (key : string) : option string :=
  environ !! key.

(** One element of the comprehension that builds [line_items]. *)
Definition line_item (currency : string) (i : CartItem.t) : string + document :=
  match py_round (CartItem.unit_price i * 100)%float with
  | inl e => inl e
  | inr unit_amount =>
      let product_data : document :=
        {["name" := VStr (CartItem.title i)]} ∪
        (if truthy (CartItem.image i)
         then {["images" := VList [VStr (default "" (CartItem.image i))]]}
         else ∅) in
      inr (<["quantity" := VInt (CartItem.quantity i)]>
            {["price_data" :=
               VDoc (<["unit_amount" := VInt unit_amount]>
                    (<["product_data" := VDoc product_data]>
                    {["currency" := VStr currency]}))]})
  end.

Fixpoint line_items (currency : string) (items : list CartItem.t)
    : string + list document :=
  match items with
  | [] => inr []
  | i :: rest =>
      match line_item currency i with
      | inl e => inl e
      | inr li =>
          match line_items currency rest with
          | inl e => inl e
          | inr lis => inr (li :: lis)
          end
      end
  end.

(** [stripe.checkout.Session.create]: a session that is created is recorded
    by the processor. *)
Definition Session_create (api_key : string) (params : SessionParams)
    (stripe : Processor) : (string + Session) * Processor :=
  match stripe_backend api_key params stripe with
  | inl e => (inl e, stripe)
  | inr session => (inr session, stripe ++ [params])
  end.

Definition create_checkout_session (environ : gmap string string)
    (payload : CheckoutIn.t) (stripe : Processor)
    : result document * Processor :=
  let secret := getenv environ "STRIPE_SECRET_KEY" in
  if negb (truthy secret)
  then (HTTPException 400 "Stripe not configured", stripe)
  else
    match line_items (CheckoutIn.currency payload) (CheckoutIn.items payload) with
    | inl e => (HTTPException 500 e, stripe)
    | inr lis =>
        let params :=
          {| sp_mode := "payment"; sp_line_items := lis;
             sp_success_url := CheckoutIn.success_url payload;
             sp_cancel_url := CheckoutIn.cancel_url payload |} in
        match Session_create (default "" secret) params stripe with
        | (inl e, stripe') => (HTTPException 500 e, stripe')
        | (inr session, stripe') =>
            (Ok (<["url" := VStr (session_url session)]>
                   {["id" := VStr (session_id session)]}), stripe')
        end
    end.

End Handlers.

(** ** Reference collaborators

    Small executable stand-ins for the libraries, used to run the handlers on
    concrete requests.  Each agrees with its library on the inputs it is
    run on below. *)

(** A string of exactly 24 hexadecimal digits names an identifier. *)
Definition hex_ObjectId (s : string) : option ObjectId :=
  if (String.length s =? 24)%nat then of_hex 0 s else None.

Definition str_scalar (v : value) : string :=
  match v with
  | VNull => "None"
  | VBool true => "True"
  | VBool false => "False"
  | _ => ""
  end.

Definition ascii_lower (c : ascii) : ascii :=
  let n := N_of_ascii c in
  if (65 <=? n)%N && (n <=? 90)%N then ascii_of_N (n + 32) else c.

Fixpoint lower (s : string) : string :=
  match s with
  | EmptyString => EmptyString
  | String c s' => String (ascii_lower c) (lower s')
  end.

(** The characters a regular expression does not read literally. *)
Definition metachars : list ascii :=
  ["\"; "^"; "$"; "."; "|"; "?"; "*"; "+"; "("; ")"; "["; "]"; "{"; "}"]%char.

Definition is_meta (c : ascii) : bool := bool_decide (c ∈ metachars).

(** The fragment of patterns made of literal characters and the wildcard
    [.], which stands for any character but a line feed. *)
Inductive atom := AnyChar | Lit (c : ascii).

Fixpoint parse_atoms (p : string) : option (list atom) :=
  match p with
  | EmptyString => Some []
  | String c p' =>
      if bool_decide (c = "."%char) then cons AnyChar <$> parse_atoms p'
      else if is_meta c then None
      else cons (Lit c) <$> parse_atoms p'
  end.

Definition atom_accepts (caseless : bool) (a : atom) (c : ascii) : bool :=
  match a with
  | AnyChar => negb (bool_decide (c = "010"%char))
  | Lit x =>
      if caseless then bool_decide (ascii_lower x = ascii_lower c)
      else bool_decide (x = c)
  end.

Fixpoint match_here (caseless : bool) (atoms : list atom) (s : string) : bool :=
  match atoms with
  | [] => true
  | a :: atoms' =>
      match s with
      | EmptyString => false
      | String c s' => atom_accepts caseless a c && match_here caseless atoms' s'
      end
  end.

Fixpoint search_atoms (caseless : bool) (atoms : list atom) (s : string) : bool :=
  match_here caseless atoms s ||
  match s with
  | EmptyString => false
  | String _ s' => search_atoms caseless atoms s'
  end.

(** Patterns outside the fragment, and options other than none or ["i"],
    are turned down by this engine. *)
Definition wildcard_compile (pattern options : string) : option (string → bool) :=
  if bool_decide (options = "i") then search_atoms true <$> parse_atoms pattern
  else if bool_decide (options = "") then search_atoms false <$> parse_atoms pattern
  else None.

(** An address needs an [@] with something on both sides of it. *)
Fixpoint has_at (seen : bool) (s : string) : bool :=
  match s with
  | EmptyString => false
  | String c s' =>
      if bool_decide (c = "@"%char)
      then seen && negb (bool_decide (s' = ""))
      else has_at true s'
  end.

Definition at_EmailStr (s : string) : string + string :=
  if has_at false s then inr s
  else inl "value is not a valid email address".

(** A processor that accepts every request. *)
Definition accepting_backend (api_key : string) (params : SessionParams)
    (stripe : Processor) : string + Session :=
  inr {| session_id := "cs_test_1";
         session_url := "https://checkout.stripe.com/c/pay/cs_test_1" |}.

(** ** Vocabulary of the specification

    Views of a stored document by field, as the schemas name them. *)

Definition stored_active (s : Stored) : bool :=
  match data s with MProduct p => Product.active p | _ => false end.

Definition stored_published (s : Stored) : bool :=
  match data s with MBlogPost b => BlogPost.published b | _ => false end.

Definition stored_title (s : Stored) : option string :=
  match data s with
  | MProduct p => Some (Product.title p)
  | MBlogPost b => Some (BlogPost.title b)
  | MMessage _ => None
  end.

Definition stored_category (s : Stored) : option string :=
  match data s with
  | MProduct p => Some (ProductCategory_str (Product.category p))
  | MBlogPost b => Some (BlogCategory_str (BlogPost.category b))
  | MMessage _ => None
  end.

Definition category_ok (category : option string) (s : Stored) : bool :=
  negb (truthy category) || bool_decide (stored_category s = category).

Definition title_found (search : string → bool) (s : Stored) : bool :=
  match stored_title s with Some t => search t | None => false end.

Definition title_ok (q : option string) (search : string → bool) (s : Stored) : bool :=
  negb (truthy q) || title_found search s.

(** The filter [list_products] hands to [find], and the one of [list_blog]. *)
Definition products_filter (category q : option string) : query :=
  let filter_query : query := {["active" := EqBool true]} in
  let filter_query :=
    if truthy category
    then <["category" := EqStr (default "" category)]> filter_query
    else filter_query in
  if truthy q
  then <["title" := Regex (default "" q) "i"]> filter_query
  else filter_query.

Definition blog_filter (category : option string) : query :=
  let query : query := {["published" := EqBool true]} in
  if truthy category
  then <["category" := EqStr (default "" category)]> query
  else query.

(** The record a handler returns for a stored document. *)
Definition returned str_other (s : Stored) : option document :=
  serialize str_other (Some (to_dict s)).

(** Identifiers grow with insertion: every document is older than, and has
    a smaller identifier than, the documents after it. *)
Definition ids_increasing (l : list Stored) : Prop :=
  StronglySorted (λ a b, (_id a < _id b)%N) l.

(** Every stored identifier is below the next one to be assigned, and each
    collection has its identifiers in increasing order. *)
Definition store_wf (db : Database) : Prop :=
  ∀ name, ids_increasing (collection db name) ∧
          Forall (λ s, (_id s < next_id db)%N) (collection db name).

(** A pattern without any character that a regular expression reads
    specially. *)
Fixpoint literal (q : string) : bool :=
  match q with
  | EmptyString => true
  | String c q' => negb (is_meta c) && literal q'
  end.

Fixpoint literal_atoms (q : string) : list atom :=
  match q with
  | EmptyString => []
  | String c q' => Lit c :: literal_atoms q'
  end.

(** The number a finite float stands for, as a fraction [(num, den)] with
    a positive denominator. *)
Definition float_fraction (x : float) : option (Z * Z) :=
  match Prim2SF x with
  | S754_zero _ => Some (0, 1)%Z
  | S754_finite s m e =>
      let n := if s then Z.neg m else Z.pos m in
      Some (match e with
            | Z0 => (n, 1)
            | Zpos k => (n * 2 ^ Z.pos k, 1)
            | Zneg k => (n, 2 ^ Z.pos k)
            end)%Z
  | _ => None
  end.

(** [n] is an integer nearest to [num / den], and the even one when
    [num / den] lies half-way between two integers. *)
Definition nearest_even (num den n : Z) : Prop :=
  (2 * Z.abs (n * den - num) ≤ den)%Z ∧
  ((2 * Z.abs (n * den - num) = den)%Z → Z.even n = true).

(** The processor line item [li] is the cart line [i] in minor units: same
    quantity, currency of the request, and as unit amount the integer nearest
    to the float product of the unit price by 100. *)
Definition line_item_of (currency : string) (i : CartItem.t) (li : document) : Prop :=
  li !! "quantity" = Some (VInt (CartItem.quantity i)) ∧
  ∃ (price_data : document) (unit_amount num den : Z),
    li !! "price_data" = Some (VDoc price_data) ∧
    price_data !! "currency" = Some (VStr currency) ∧
    price_data !! "unit_amount" = Some (VInt unit_amount) ∧
    float_fraction (CartItem.unit_price i * 100) = Some (num, den) ∧
    nearest_even num den unit_amount.

(** What [serialize] does to the value of a field: an identifier becomes its
    string, anything else, lists and sub-documents included, is kept. *)
Definition stringify_top (v : value) : value :=
  match v with
  | VOid o => VStr (ObjectId_str o)
  | _ => v
  end.

(** [q] occurs in [t], letter case aside. *)
Fixpoint prefix_ci (q t : string) : bool :=
  match q with
  | EmptyString => true
  | String a q' =>
      match t with
      | EmptyString => false
      | String b t' => bool_decide (ascii_lower a = ascii_lower b) && prefix_ci q' t'
      end
  end.

Fixpoint contains_ci (q t : string) : bool :=
  prefix_ci q t ||
  match t with
  | EmptyString => false
  | String _ t' => contains_ci q t'
  end.

(** ** Liveness and diagnostics ([root], [test_database]) *)

Definition root : document :=
  <["status" := VStr "ok"]> {["name" := VStr "SEYA API"]}.

(** A string holds the UTF-8 bytes of a Python [str]; a character is a
    byte that starts one, followed by the bytes [10xxxxxx] that continue
    it. *)
Definition is_continuation (c : ascii) : bool :=
  let n := N_of_ascii c in (128 <=? n)%N && (n <? 192)%N.

(** [len(s)]: the number of characters. *)
Fixpoint str_len (s : string) : nat :=
  match s with
  | EmptyString => 0
  | String c s' => if is_continuation c then str_len s' else S (str_len s')
  end.

(** [s[:n]]: the first [n] characters, each with all its bytes. *)
Fixpoint str_take (n : nat) (s : string) : string :=
  match s with
  | EmptyString => EmptyString
  | String c s' =>
      if is_continuation c then String c (str_take n s')
      else match n with
           | O => EmptyString
           | S n' => String c (str_take n' s')
           end
  end.

Section Diagnostics.

(** [db.name], when the handle has that attribute. *)
Variable Database_name : Database → option string.

(** The text of the exception the driver raises when the server of this
    database does not answer. *)
Variable server_error : Database → string.

(** [db.list_collection_names()]. *)
Definition list_collection_names (db : Database) : string + list string :=
  if online db then inr (map_to_list (collections db)).*1
  else inl (server_error db).

(** The response is filled in field by field; an exception leaves the fields
    already written and replaces ["database"] by the shortened error. *)
Definition test_database (environ : gmap string string) (db : option Database)
    : document :=
  let response : document :=
    <["collections" := VList []]>
    (<["database_name" := VStr "❌ Not Set"]>
    (<["database_url" := VStr "❌ Not Set"]>
    (<["database" := VStr "❌ Not Available"]>
    {["backend" := VStr "✅ Running"]}))) in
  match db with
  | None => response
  | Some db =>
      let response := <["database" := VStr "✅ Connected"]> response in
      let response :=
        <["database_url" :=
            VStr (if truthy (getenv environ "DATABASE_URL")
                  then "✅ Set" else "❌ Not Set")]> response in
      let response :=
        <["database_name" := VStr (default "Unknown" (Database_name db))]>
          response in
      match list_collection_names db with
      | inr names => <["collections" := VList (VStr <$> names)]> response
      | inl e => <["database" := VStr ("⚠️ Error: " +:+ str_take 80 e)]> response
      end
  end.

End Diagnostics.

(** * Properties *)

(** ** Serialization *)

Lemma stringify_items_lookup (l : list (string * value)) (d : document) k :
  NoDup l.*1 →
  foldl stringify_item d l !! k =
    match (list_to_map l : document) !! k with
    | Some (VOid o) => Some (VStr (ObjectId_str o))
    | _ => d !! k
    end.
Proof.
  revert d. induction l as [|[k' v] l IH]; intros d Hnd; simpl.
  - by rewrite lookup_empty.
  - inversion Hnd as [|? ? Hnotin Hnd']; subst. rewrite IH by done.
    destruct (decide (k' = k)) as [->|Hne].
    + rewrite lookup_insert_eq.
      rewrite (not_elem_of_list_to_map_1 _ k) by done.
      unfold stringify_item; simpl.
      destruct v; rewrite ?lookup_insert_eq; done.
    + rewrite lookup_insert_ne by done.
      assert (stringify_item d (k', v) !! k = d !! k) as ->; [|done].
      unfold stringify_item; simpl.
      destruct v; rewrite ?lookup_insert_ne; done.
Qed.

Lemma stringify_all_lookup (d : document) k :
  foldl stringify_item d (map_to_list d) !! k = stringify_top <$> d !! k.
Proof.
  rewrite stringify_items_lookup by apply NoDup_fst_map_to_list.
  rewrite list_to_map_to_list.
  destruct (d !! k) as [[]|]; done.
Qed.

Lemma serialize_nonempty str_other (doc : document) :
  doc ≠ ∅ →
  serialize str_other (Some doc) =
    let d := match doc !! "_id" with
             | Some x => <["id" := VStr (py_str str_other x)]> (delete "_id" doc)
             | None => doc
             end in
    Some (foldl stringify_item d (map_to_list d)).
Proof.
  intros Hne. unfold serialize.
  destruct (size doc =? 0)%nat eqn:Hsz; [|done].
  apply Nat.eqb_eq, map_size_empty_iff in Hsz. done.
Qed.

(** The fields of a serialized document, one by one. *)
Lemma serialize_fields str_other (doc : document) :
  doc ≠ ∅ →
  ∃ d, serialize str_other (Some doc) = Some d ∧
    d !! "_id" = None ∧
    (∀ x, doc !! "_id" = Some x → d !! "id" = Some (VStr (py_str str_other x))) ∧
    (doc !! "_id" = None → d !! "id" = stringify_top <$> doc !! "id") ∧
    (∀ k, k ≠ "_id" → k ≠ "id" → d !! k = stringify_top <$> doc !! k).
Proof.
  intros Hne. rewrite serialize_nonempty by done. cbv zeta.
  eexists; split; [reflexivity|].
  destruct (doc !! "_id") as [x|] eqn:Hid.
  - repeat split.
    + by rewrite stringify_all_lookup, lookup_insert_ne, lookup_delete_eq.
    + intros ? [= <-]. by rewrite stringify_all_lookup, lookup_insert_eq.
    + done.
    + intros k H1 H2.
      by rewrite stringify_all_lookup, lookup_insert_ne, lookup_delete_ne.
  - repeat split.
    + by rewrite stringify_all_lookup, Hid.
    + done.
    + intros _. by rewrite stringify_all_lookup.
    + intros k _ _. by rewrite stringify_all_lookup.
Qed.

(** The field [k] of a serialized document, for every key but ["_id"] and
    but an ["id"] that the identifier of the document replaces. *)
Lemma serialize_kept_field str_other (doc d : document) k :
  doc ≠ ∅ →
  serialize str_other (Some doc) = Some d →
  k ≠ "_id" → (k = "id" → doc !! "_id" = None) →
  d !! k = stringify_top <$> doc !! k.
Proof.
  intros Hne Hd H1 H2.
  destruct (serialize_fields str_other doc Hne) as (d' & Hd' & _ & _ & Hid & Hk).
  rewrite Hd in Hd'. injection Hd' as <-.
  destruct (decide (k = "id")) as [->|Hne']; [by apply Hid, H2|by apply Hk].
Qed.

(** C4, as the code has it: [serialize] passes a null or empty input
    through; on any other document it removes ["_id"] and puts its string
    under ["id"], and turns every field whose value is itself an identifier
    into that identifier's string, a field named ["id"] included when the
    document has no ["_id"] to replace it.  It does so for the fields of the
    document only: a list or a sub-document keeps the identifiers it
    contains, and every other field is kept as it is.  In particular
    [{"_id": X, "owner": Y}] with [Y] an identifier becomes
    [{"id": str(X), "owner": str(Y)}], and [{"id": Y}] becomes
    [{"id": str(Y)}]. *)
Theorem serialize_top_level str_other :
  serialize str_other None = None ∧
  serialize str_other (Some ∅) = Some ∅ ∧
  (∀ doc : document, doc ≠ ∅ →
     ∃ d, serialize str_other (Some doc) = Some d ∧
       d !! "_id" = None ∧
       (∀ x, doc !! "_id" = Some x → d !! "id" = Some (VStr (py_str str_other x))) ∧
       (∀ k o, k ≠ "_id" → (k = "id" → doc !! "_id" = None) →
          doc !! k = Some (VOid o) → d !! k = Some (VStr (ObjectId_str o))) ∧
       (∀ k v, k ≠ "_id" → (k = "id" → doc !! "_id" = None) →
          doc !! k = Some v → (∀ o, v ≠ VOid o) → d !! k = Some v) ∧
       (∀ k, k ≠ "_id" → (k = "id" → doc !! "_id" = None) →
          doc !! k = None → d !! k = None)) ∧
  (∀ X Y,
     serialize str_other (Some (<["_id" := X]> {["owner" := VOid Y]})) =
     Some (<["id" := VStr (py_str str_other X)]>
             {["owner" := VStr (ObjectId_str Y)]})) ∧
  (∀ Y, serialize str_other (Some {["id" := VOid Y]}) =
        Some {["id" := VStr (ObjectId_str Y)]}).
Proof.
  split; [done|]. split; [done|]. split; [|split].
  - intros doc Hne.
    destruct (serialize_fields str_other doc Hne) as (d & Hd & Hno & Hid & _ & _).
    exists d. split; [done|]. split; [done|]. split; [done|].
    split; [|split].
    + intros k o H1 H2 Hv.
      by rewrite (serialize_kept_field str_other doc d k), Hv.
    + intros k v H1 H2 Hv Hnot.
      rewrite (serialize_kept_field str_other doc d k), Hv by done.
      destruct v; try done. by destruct (Hnot o).
    + intros k H1 H2 Hv.
      by rewrite (serialize_kept_field str_other doc d k), Hv.
  - intros X Y.
    set (doc := <["_id" := X]> {["owner" := VOid Y]} : document).
    assert (Hne : doc ≠ ∅) by apply insert_non_empty.
    destruct (serialize_fields str_other doc Hne) as (d & Hd & Hno & Hid & _ & Hk).
    rewrite Hd. f_equal. apply map_eq. intros k.
    destruct (decide (k = "id")) as [->|Hk1].
    { rewrite lookup_insert_eq. apply Hid. unfold doc. by rewrite lookup_insert_eq. }
    rewrite lookup_insert_ne by done.
    destruct (decide (k = "_id")) as [->|Hk2].
    { by rewrite Hno, lookup_singleton_ne. }
    rewrite Hk by done. unfold doc. rewrite lookup_insert_ne by done.
    destruct (decide (k = "owner")) as [->|Hk3].
    + by rewrite !lookup_singleton_eq.
    + by rewrite !lookup_singleton_ne.
  - intros Y.
    set (doc := {["id" := VOid Y]} : document).
    assert (Hne : doc ≠ ∅) by apply map_non_empty_singleton.
    destruct (serialize_fields str_other doc Hne) as (d & Hd & Hno & _ & Hid & Hk).
    rewrite Hd. f_equal. apply map_eq. intros k.
    destruct (decide (k = "id")) as [->|Hk1].
    { rewrite lookup_singleton_eq, Hid by done. unfold doc.
      by rewrite lookup_singleton_eq. }
    rewrite lookup_singleton_ne by done.
    destruct (decide (k = "_id")) as [->|Hk2]; [done|].
    rewrite Hk by done. unfold doc. by rewrite lookup_singleton_ne.
Qed.

Lemma serialize_top_level_witness :
  let doc : document := <["_id" := VOid 1]> {["owner" := VOid 2]} in
  let plain : document := <["id" := VOid 7]> {["name" := VStr "x"]} in
  doc ≠ ∅ ∧ plain ≠ ∅ ∧
  (∃ d, serialize str_scalar (Some doc) = Some d ∧
     d !! "_id" = None ∧
     d !! "id" = Some (VStr "000000000000000000000001") ∧
     d !! "owner" = Some (VStr "000000000000000000000002")) ∧
  (∃ d, serialize str_scalar (Some plain) = Some d ∧
     d !! "id" = Some (VStr "000000000000000000000007")).
Proof.
  intros doc plain.
  assert (Hne : doc ≠ ∅) by apply insert_non_empty.
  assert (Hne' : plain ≠ ∅) by apply insert_non_empty.
  split; [exact Hne|]. split; [exact Hne'|].
  destruct (serialize_top_level str_scalar) as (_ & _ & Hdoc & _).
  split.
  - destruct (Hdoc doc Hne) as (d & Hd & Hno & Hid & Hoid & _).
    exists d. split; [exact Hd|]. split; [exact Hno|]. split.
    + apply (Hid (VOid 1%N)). reflexivity.
    + apply (Hoid "owner" 2%N); [discriminate | discriminate | reflexivity].
  - destruct (Hdoc plain Hne') as (d & Hd & _ & _ & Hoid & _).
    exists d. split; [exact Hd|].
    apply (Hoid "id" 7%N); [discriminate | reflexivity | reflexivity].
Defined.

(** C4 fails as stated: an identifier inside a list is still an identifier
    after [serialize], not its string. *)
Lemma serialize_nested_counterexample :
  let doc : document := <["_id" := VOid 1]> {["refs" := VList [VOid 2]]} in
  ∃ d, serialize str_scalar (Some doc) = Some d ∧
    d !! "id" = Some (VStr "000000000000000000000001") ∧
    d !! "refs" = Some (VList [VOid 2]) ∧
    d !! "refs" ≠ Some (VList [VStr (ObjectId_str 2)]).
Proof.
  eexists. split; [vm_compute; reflexivity|].
  split; [vm_compute; reflexivity|]. split; [vm_compute; reflexivity|].
  vm_compute. discriminate.
Qed.

(** ** Queries *)

Lemma to_dict_id s : to_dict s !! "_id" = Some (VOid (_id s)).
Proof. apply lookup_insert_eq. Qed.

Lemma to_dict_nonempty s : to_dict s ≠ ∅.
Proof. apply insert_non_empty. Qed.

Lemma to_dict_active s :
  to_dict s !! "active" =
    match data s with MProduct p => Some (VBool (Product.active p)) | _ => None end.
Proof. destruct s as [i [p|b|m]]; reflexivity. Qed.

Lemma to_dict_published s :
  to_dict s !! "published" =
    match data s with MBlogPost b => Some (VBool (BlogPost.published b)) | _ => None end.
Proof. destruct s as [i [p|b|m]]; reflexivity. Qed.

Lemma to_dict_title s : to_dict s !! "title" = VStr <$> stored_title s.
Proof. destruct s as [i [p|b|m]]; reflexivity. Qed.

Lemma to_dict_category s : to_dict s !! "category" = VStr <$> stored_category s.
Proof. destruct s as [i [p|b|m]]; reflexivity. Qed.

(** The key being added to a filter is not in it yet. *)
Ltac fresh_key :=
  rewrite ?lookup_insert_ne by done; apply lookup_singleton_ne; done.

Section Queries.
Variable str_other : value → string.
Variable re_compile : string → string → option (string → bool).

Lemma active_holds s :
  field_holds re_compile (EqBool true) (to_dict s !! "active") = stored_active s.
Proof.
  rewrite to_dict_active. unfold stored_active.
  destruct (data s) as [p|b|m]; try done. simpl. by destruct (Product.active p).
Qed.

Lemma published_holds s :
  field_holds re_compile (EqBool true) (to_dict s !! "published") = stored_published s.
Proof.
  rewrite to_dict_published. unfold stored_published.
  destruct (data s) as [p|b|m]; try done. simpl. by destruct (BlogPost.published b).
Qed.

Lemma category_holds category s :
  truthy category = true →
  field_holds re_compile (EqStr (default "" category)) (to_dict s !! "category")
  = category_ok category s.
Proof.
  intros Ht. rewrite to_dict_category. unfold category_ok. rewrite Ht. simpl.
  destruct category as [c|]; [|done]. simpl.
  destruct (stored_category s) as [c'|]; simpl; [|done].
  apply bool_decide_ext. split; [by intros ->|by intros [= ->]].
Qed.

Lemma title_holds q search s :
  truthy q = true →
  re_compile (default "" q) "i" = Some search →
  field_holds re_compile (Regex (default "" q) "i") (to_dict s !! "title")
  = title_ok q search s.
Proof.
  intros Ht Hre. rewrite to_dict_title. unfold title_ok, title_found. rewrite Ht.
  simpl. destruct (stored_title s) as [t|]; simpl; [|done]. by rewrite Hre.
Qed.

Lemma products_filter_valid category q :
  query_valid re_compile (products_filter category q) ↔
  (truthy q = true → is_Some (re_compile (default "" q) "i")).
Proof.
  unfold query_valid, products_filter.
  destruct (truthy category), (truthy q);
    repeat (rewrite map_Forall_insert by fresh_key);
    rewrite map_Forall_singleton; simpl;
    rewrite ?bool_decide_eq_true; naive_solver.
Qed.

Lemma products_filter_matches category q search s :
  (truthy q = true → re_compile (default "" q) "i" = Some search) →
  doc_matches re_compile (products_filter category q) (to_dict s) ↔
  stored_active s = true ∧ category_ok category s = true ∧ title_ok q search s = true.
Proof.
  intros Hre. unfold doc_matches, products_filter.
  destruct (truthy category) eqn:Hc, (truthy q) eqn:Hq;
    repeat (rewrite map_Forall_insert by fresh_key);
    rewrite map_Forall_singleton;
    rewrite active_holds, ?category_holds, ?(title_holds q search) by auto;
    unfold category_ok, title_ok; rewrite ?Hc, ?Hq; simpl; naive_solver.
Qed.

Lemma blog_filter_valid category : query_valid re_compile (blog_filter category).
Proof.
  unfold query_valid, blog_filter.
  destruct (truthy category);
    repeat (rewrite map_Forall_insert by fresh_key);
    rewrite map_Forall_singleton; simpl; done.
Qed.

Lemma blog_filter_matches category s :
  doc_matches re_compile (blog_filter category) (to_dict s) ↔
  stored_published s = true ∧ category_ok category s = true.
Proof.
  unfold doc_matches, blog_filter.
  destruct (truthy category) eqn:Hc;
    repeat (rewrite map_Forall_insert by fresh_key);
    rewrite map_Forall_singleton;
    rewrite published_holds, ?category_holds by auto;
    unfold category_ok; rewrite ?Hc; simpl; naive_solver.
Qed.

(** A reachable server and a well-formed filter: the cursor yields the
    matching documents, sorted and cut as it was told. *)
Lemma fetch_online c :
  cur_online c = true →
  query_valid re_compile (cur_filter c) →
  fetch re_compile c =
    inr (to_dict <$> apply_limit (cur_limit c)
           (match cur_sort c with
            | Some direction => sort_by_id direction
            | None => id
            end (filter (λ s, doc_matches re_compile (cur_filter c) (to_dict s))
                   (cur_docs c)))).
Proof.
  intros Hon Hv. unfold fetch. rewrite Hon. simpl.
  rewrite bool_decide_eq_true_2 by done. simpl. by destruct (cur_sort c).
Qed.

Lemma fetch_offline c :
  cur_online c = false → fetch re_compile c = inl "ServerSelectionTimeoutError".
Proof. intros Hoff. unfold fetch. by rewrite Hoff. Qed.

Lemma fetch_invalid c :
  cur_online c = true → ¬ query_valid re_compile (cur_filter c) →
  fetch re_compile c = inl "OperationFailure".
Proof.
  intros Hon Hv. unfold fetch. rewrite Hon. simpl.
  by rewrite bool_decide_eq_false_2.
Qed.

(** *** Sorting on the identifier *)

Lemma insert_sorted_last x l :
  Forall (λ y, (_id x < _id y)%N) l →
  insert_sorted (λ a b, (b <? a)%N) x l = l ++ [x].
Proof.
  induction 1 as [|y l Hy _ IH]; simpl; [done|].
  apply N.ltb_lt in Hy. by rewrite Hy, IH.
Qed.

Lemma sort_desc_increasing l : ids_increasing l → sort_by_id (-1) l = reverse l.
Proof.
  unfold sort_by_id. simpl.
  induction 1 as [|x l _ IH Hx]; simpl; [done|].
  rewrite IH, reverse_cons. apply insert_sorted_last. by apply Forall_reverse.
Qed.

Lemma ids_increasing_filter (P : Stored → Prop) `{!∀ s, Decision (P s)} l :
  ids_increasing l → ids_increasing (filter P l).
Proof.
  induction 1 as [|x l _ IH Hx]; [constructor|].
  rewrite filter_cons. destruct (decide (P x)); [|done].
  constructor; [done|].
  apply Forall_forall. intros y [_ Hy]%list_elem_of_filter.
  by apply (proj1 (Forall_forall _ _) Hx).
Qed.

Lemma insert_sorted_elem before x y l :
  y ∈ insert_sorted before x l ↔ y = x ∨ y ∈ l.
Proof.
  induction l as [|z l IH]; simpl; [set_solver|].
  destruct (before (_id z) (_id x)); set_solver.
Qed.

Lemma sort_by_id_elem direction y l : y ∈ sort_by_id direction l ↔ y ∈ l.
Proof.
  unfold sort_by_id. induction l as [|x l IH]; simpl; [done|].
  rewrite insert_sorted_elem. set_solver.
Qed.

Lemma sort_by_id_length direction l : length (sort_by_id direction l) = length l.
Proof.
  unfold sort_by_id. induction l as [|x l IH]; simpl; [done|].
  rewrite <- IH. generalize (foldr (insert_sorted
    (if (direction =? -1)%Z then λ a b, (b <? a)%N else λ a b, (a <? b)%N)) [] l).
  intros l'. induction l' as [|z l' IH']; simpl; [done|].
  destruct (if (direction =? -1)%Z then _ else _); simpl; by rewrite ?IH'.
Qed.

(** *** The two listing routes *)

Lemma list_products_online db category q search :
  online db = true →
  (truthy q = true → re_compile (default "" q) "i" = Some search) →
  list_products str_other re_compile (Some db) category q =
    Ok (returned str_other <$>
          take 100 (filter (λ s, stored_active s = true ∧
                                 category_ok category s = true ∧
                                 title_ok q search s = true)
                      (collection db "product"))).
Proof.
  intros Hon Hre.
  change (list_products str_other re_compile (Some db) category q) with
    (match fetch re_compile (limit 100 (find db "product" (products_filter category q)))
     with
     | inl e => Unhandled e
     | inr items => Ok ((λ x, serialize str_other (Some x)) <$> items)
     end).
  rewrite fetch_online; simpl; [|done|].
  - rewrite <- list_fmap_compose. do 3 f_equal.
    apply list_filter_iff. intros s. by apply products_filter_matches.
  - apply products_filter_valid. intros Ht. rewrite Hre by done. by eexists.
Qed.

Lemma list_products_inv db category q rs :
  list_products str_other re_compile db category q = Ok rs →
  ∃ d search,
    db = Some d ∧ online d = true ∧
    (truthy q = true → re_compile (default "" q) "i" = Some search) ∧
    rs = returned str_other <$>
           take 100 (filter (λ s, stored_active s = true ∧
                                  category_ok category s = true ∧
                                  title_ok q search s = true)
                       (collection d "product")).
Proof.
  destruct db as [d|]; [|done]. intros Hrs.
  destruct (online d) eqn:Hon; cycle 1.
  { unfold list_products in Hrs. by rewrite fetch_offline in Hrs. }
  destruct (decide (query_valid re_compile (products_filter category q)))
    as [Hv|Hv]; cycle 1.
  { unfold list_products in Hrs.
    rewrite fetch_invalid in Hrs; done. }
  pose proof (proj1 (products_filter_valid category q) Hv) as Hq'.
  destruct (re_compile (default "" q) "i") as [search|] eqn:Hre.
  - exists d, search.
    rewrite (list_products_online d category q search) in Hrs by done.
    injection Hrs as <-. by repeat split.
  - assert (Hq : truthy q = true → re_compile (default "" q) "i" = Some (λ _, true)).
    { intros Ht. destruct (Hq' Ht) as [? ?]. congruence. }
    exists d, (λ _, true).
    rewrite (list_products_online d category q (λ _, true)) in Hrs by done.
    injection Hrs as <-. repeat split; try done.
    intros Ht. destruct (Hq' Ht) as [? ?]; congruence.
Qed.

Lemma list_blog_online db category :
  online db = true →
  list_blog str_other re_compile (Some db) category =
    Ok (returned str_other <$>
          take 50 (sort_by_id (-1)
                     (filter (λ s, stored_published s = true ∧
                                   category_ok category s = true)
                        (collection db "blogpost")))).
Proof.
  intros Hon.
  change (list_blog str_other re_compile (Some db) category) with
    (match fetch re_compile
             (limit 50 (sort_id (-1) (find db "blogpost" (blog_filter category))))
     with
     | inl e => Unhandled e
     | inr posts => Ok ((λ x, serialize str_other (Some x)) <$> posts)
     end).
  rewrite fetch_online; simpl; [|done|apply blog_filter_valid].
  rewrite <- list_fmap_compose. do 4 f_equal.
  apply list_filter_iff. intros s. by apply blog_filter_matches.
Qed.

Lemma list_blog_inv db category rs :
  list_blog str_other re_compile db category = Ok rs →
  ∃ d, db = Some d ∧ online d = true.
Proof.
  destruct db as [d|]; [|done]. intros Hrs. exists d. split; [done|].
  destruct (online d) eqn:Hon; [done|].
  unfold list_blog in Hrs. by rewrite fetch_offline in Hrs.
Qed.

(** A returned record shows the fields of the stored document it came from. *)
Lemma returned_field s k :
  k ≠ "_id" → k ≠ "id" →
  ∃ d, returned str_other s = Some d ∧ d !! k = stringify_top <$> to_dict s !! k.
Proof.
  intros H1 H2.
  destruct (serialize_fields str_other (to_dict s) (to_dict_nonempty s))
    as (d & Hd & _ & _ & _ & Hk).
  exists d. split; [done|]. by apply Hk.
Qed.

End Queries.

(** ** Looking a product up *)

(** C1, as the code has it: once the database handle is configured, a
    product identifier that [ObjectId] refuses is answered with 400
    ["Invalid ID"], whatever the store contains and even when the server is
    unreachable, because the identifier is converted before the store is
    asked.  Without a handle the route answers 500 before it looks at the
    identifier. *)
Theorem get_product_malformed_id bson_ObjectId str_other re_compile product_id :
  bson_ObjectId product_id = None →
  (∀ db : Database,
     get_product bson_ObjectId str_other re_compile (Some db) product_id
       = HTTPException 400 "Invalid ID" ∧
     status (get_product bson_ObjectId str_other re_compile (Some db) product_id)
       = 400%Z) ∧
  get_product bson_ObjectId str_other re_compile None product_id
    = HTTPException 500 "Database not configured".
Proof.
  intros Hbad. split; [|done].
  intros db. unfold get_product, oid. by rewrite Hbad.
Qed.

Lemma get_product_malformed_id_witness :
  hex_ObjectId "not-an-id" = None ∧
  status (get_product hex_ObjectId str_scalar wildcard_compile
            (Some (mkDatabase ∅ false 0)) "not-an-id") = 400%Z.
Proof.
  assert (H : hex_ObjectId "not-an-id" = None) by reflexivity.
  split; [exact H|].
  exact (proj2 (proj1 (get_product_malformed_id hex_ObjectId str_scalar
                         wildcard_compile "not-an-id" H) (mkDatabase ∅ false 0))).
Defined.

(** C1 fails as stated: with no database handle a malformed identifier is
    answered with 500. *)
Lemma get_product_no_handle_counterexample :
  hex_ObjectId "not-an-id" = None ∧
  status (get_product hex_ObjectId str_scalar wildcard_compile None "not-an-id")
    = 500%Z.
Proof. split; reflexivity. Qed.

(** ** Contact *)

(** C2, what the code does: a payload whose address [EmailStr] refuses is
    answered with 500 and the text of the validation error, and nothing is
    stored. *)
Theorem contact_invalid_email_is_500 EmailStr payload db e :
  EmailStr (ContactIn.email payload) = inl e →
  contact_submit EmailStr payload db = (HTTPException 500 e, db) ∧
  status (contact_submit EmailStr payload db).1 = 500%Z.
Proof.
  intros Hbad. unfold contact_submit, Message_new. by rewrite Hbad.
Qed.

Lemma contact_invalid_email_is_500_witness :
  let payload := ContactIn.mk "Ada" "not-an-email" "Hello" "A question" in
  let db := Some (mkDatabase ∅ true 0) in
  at_EmailStr (ContactIn.email payload) = inl "value is not a valid email address" ∧
  status (contact_submit at_EmailStr payload db).1 = 500%Z.
Proof.
  intros payload db.
  assert (H : at_EmailStr (ContactIn.email payload)
              = inl "value is not a valid email address") by reflexivity.
  split; [exact H|].
  exact (proj2 (contact_invalid_email_is_500 at_EmailStr payload db _ H)).
Defined.

(** A payload that validates is stored as a message from the contact form. *)
Lemma contact_valid_email_stored EmailStr payload db addr :
  EmailStr (ContactIn.email payload) = inr addr →
  online db = true →
  contact_submit EmailStr payload (Some db) =
    (Ok {["status" := VStr "ok"]},
     Some (insert_one "message"
             (MMessage (Message.mk (ContactIn.name payload) addr
                          (ContactIn.subject payload) (ContactIn.message payload)
                          Contact)) db)).
Proof.
  intros Hok Hon. unfold contact_submit, Message_new, create_document.
  by rewrite Hok, Hon.
Qed.

(** ** Listing products *)

(** C7: every record [list_products] returns comes from a stored product
    whose [active] is true, and shows [active = true] itself; when a
    category is asked for, the stored category of every returned record is
    that very string, so asking for ["Hoodies"] never yields a ["Tees"]
    product; and at most 100 records are returned. *)
Theorem list_products_active_category_limit str_other re_compile db category q rs :
  list_products str_other re_compile db category q = Ok rs →
  length rs ≤ 100 ∧
  ∃ store, db = Some store ∧
    ∀ r, r ∈ rs →
      ∃ s doc, s ∈ collection store "product" ∧
        r = returned str_other s ∧ r = Some doc ∧
        stored_active s = true ∧
        doc !! "active" = Some (VBool true) ∧
        (truthy category = true →
           stored_category s = category ∧
           doc !! "category" = VStr <$> category) ∧
        (category = Some "Hoodies" → doc !! "category" ≠ Some (VStr "Tees")).
Proof.
  intros (store & search & -> & Hon & Hre & ->)%list_products_inv.
  split. { rewrite length_fmap, length_take. lia. }
  exists store. split; [done|].
  intros r (s & -> & Hs)%list_elem_of_fmap.
  apply subseteq_take, list_elem_of_filter in Hs as [(Hact & Hcat & _) Hs].
  destruct (returned_field str_other s "active") as (doc & Hdoc & Hactive); [done..|].
  destruct (returned_field str_other s "category") as (doc' & Hdoc' & Hcategory);
    [done..|].
  rewrite Hdoc in Hdoc'. injection Hdoc' as <-.
  assert (Hc : truthy category = true →
               stored_category s = category ∧ doc !! "category" = VStr <$> category).
  { intros Ht. unfold category_ok in Hcat. rewrite Ht in Hcat. simpl in Hcat.
    apply bool_decide_eq_true in Hcat. split; [done|].
    rewrite Hcategory, to_dict_category, Hcat. by destruct category. }
  exists s, doc. split; [done|]. split; [done|]. split; [done|].
  split; [done|]. split; [|split; [done|]].
  - rewrite Hactive, to_dict_active. unfold stored_active in Hact.
    destruct (data s); try done. by rewrite Hact.
  - intros ->. destruct Hc as [_ Hc]; [done|]. by rewrite Hc.
Qed.

Lemma list_products_active_category_limit_witness :
  let noir := mkStored 1 (MProduct (Product.mk "Hoodie Noir" None 89 Hoodies [] [] [] true)) in
  let blanc := mkStored 2 (MProduct (Product.mk "Tee Blanc" None 39 Tees [] [] [] true)) in
  let gris := mkStored 3 (MProduct (Product.mk "Hoodie Gris" None 79 Hoodies [] [] [] false)) in
  let db := mkDatabase {["product" := [noir; blanc; gris]]} true 4 in
  let rs := returned str_scalar <$> [noir] in
  list_products str_scalar wildcard_compile (Some db) (Some "Hoodies") None = Ok rs ∧
  length rs ≤ 100.
Proof.
  intros noir blanc gris db rs.
  assert (H : list_products str_scalar wildcard_compile (Some db) (Some "Hoodies") None
              = Ok rs).
  { rewrite (list_products_online str_scalar wildcard_compile db _ _ (λ _, true));
      [|reflexivity|done].
    unfold rs. do 2 f_equal; vm_compute; reflexivity. }
  split; [exact H|].
  exact (proj1 (list_products_active_category_limit str_scalar wildcard_compile
                  (Some db) (Some "Hoodies") None rs H)).
Defined.

(** C3, as the code has it: the query string is handed to the store as a
    regular expression with option [i].  For a non-empty [q] that compiles,
    on a reachable store, the route returns the first 100, in store order, of
    the active products whose title the compiled expression finds a match
    in (and whose category is the requested one, when one is requested). *)
Theorem list_products_regex_search str_other re_compile db category q search :
  online db = true →
  q ≠ "" →
  re_compile q "i" = Some search →
  list_products str_other re_compile (Some db) category (Some q) =
    Ok (returned str_other <$>
          take 100 (filter (λ s, stored_active s = true ∧
                                 category_ok category s = true ∧
                                 title_found search s = true)
                      (collection db "product"))).
Proof.
  intros Hon Hq Hre.
  assert (Ht : truthy (Some q) = true) by by destruct q.
  rewrite (list_products_online str_other re_compile db category (Some q) search)
    by done.
  do 3 f_equal. apply list_filter_iff. intros s.
  unfold title_ok. by rewrite Ht.
Qed.

Lemma list_products_regex_search_witness :
  let abc := mkStored 1 (MProduct (Product.mk "abc" None 10 Tees [] [] [] true)) in
  let xyz := mkStored 2 (MProduct (Product.mk "xyz" None 10 Tees [] [] [] true)) in
  let db := mkDatabase {["product" := [abc; xyz]]} true 3 in
  online db = true ∧ "a.c" ≠ "" ∧
  list_products str_scalar wildcard_compile (Some db) None (Some "a.c")
    = Ok (returned str_scalar <$> [abc]).
Proof.
  intros abc xyz db.
  assert (Hre : wildcard_compile "a.c" "i"
                = Some (search_atoms true [Lit "a"; AnyChar; Lit "c"]%char))
    by reflexivity.
  split; [reflexivity|]. split; [discriminate|].
  rewrite (list_products_regex_search str_scalar wildcard_compile db None "a.c" _
             eq_refl ltac:(discriminate) Hre).
  do 2 f_equal; vm_compute; reflexivity.
Defined.

(** C3 fails as stated: the pattern [a.c] finds the product titled ["abc"],
    whose title does not contain the three characters [a.c]. *)
Lemma list_products_substring_counterexample :
  let abc := mkStored 1 (MProduct (Product.mk "abc" None 10 Tees [] [] [] true)) in
  let db := mkDatabase {["product" := [abc]]} true 2 in
  list_products str_scalar wildcard_compile (Some db) None (Some "a.c")
    = Ok [returned str_scalar abc] ∧
  contains_ci "a.c" "abc" = false ∧
  filter (λ s, stored_active s = true ∧ title_found (contains_ci "a.c") s = true)
    (collection db "product") = [].
Proof.
  intros abc db. split; [|split; vm_compute; reflexivity].
  rewrite (list_products_online str_scalar wildcard_compile db None (Some "a.c")
             (search_atoms true [Lit "a"; AnyChar; Lit "c"]%char));
    [|reflexivity|reflexivity].
  change [returned str_scalar abc] with (returned str_scalar <$> [abc]).
  do 2 f_equal; vm_compute; reflexivity.
Qed.

(** On patterns without special characters the reference engine is the
    search for a substring, letter case aside. *)
Lemma parse_literal q : literal q = true → parse_atoms q = Some (literal_atoms q).
Proof.
  induction q as [|c q IH]; simpl; [done|].
  intros [Hc Hq]%andb_true_iff. apply negb_true_iff in Hc.
  rewrite Hc. destruct (bool_decide (c = "."%char)) eqn:Hdot.
  - apply bool_decide_eq_true in Hdot. subst. done.
  - by rewrite IH.
Qed.

Lemma match_here_literal q t : match_here true (literal_atoms q) t = prefix_ci q t.
Proof.
  revert t. induction q as [|c q IH]; intros t; simpl; [done|].
  destruct t as [|b t]; [done|]. simpl. by rewrite IH.
Qed.

Lemma wildcard_literal_is_substring q :
  literal q = true →
  ∃ search, wildcard_compile q "i" = Some search ∧ ∀ t, search t = contains_ci q t.
Proof.
  intros Hq. exists (search_atoms true (literal_atoms q)). split.
  - unfold wildcard_compile. simpl. by rewrite parse_literal.
  - intros t. induction t as [|b t IH]; simpl.
    + by rewrite match_here_literal.
    + by rewrite match_here_literal, IH.
Qed.

(** ** Empty parameters *)

(** C10: an empty [category] or [q] is the same request as one without that
    parameter, for both listing routes; with every parameter empty, a
    reachable store answers with its first 100 active products, and with its
    50 published posts of greatest identifier, whatever their category or
    title. *)
Theorem empty_parameter_is_omitted str_other re_compile db category q :
  list_products str_other re_compile db (Some "") q
    = list_products str_other re_compile db None q ∧
  list_products str_other re_compile db category (Some "")
    = list_products str_other re_compile db category None ∧
  list_blog str_other re_compile db (Some "")
    = list_blog str_other re_compile db None ∧
  (∀ store, online store = true →
     list_products str_other re_compile (Some store) (Some "") (Some "") =
       Ok (returned str_other <$>
             take 100 (filter (λ s, stored_active s = true)
                         (collection store "product"))) ∧
     list_blog str_other re_compile (Some store) (Some "") =
       Ok (returned str_other <$>
             take 50 (sort_by_id (-1)
                        (filter (λ s, stored_published s = true)
                           (collection store "blogpost"))))).
Proof.
  split; [done|]. split; [done|]. split; [done|].
  intros store Hon. split.
  - rewrite (list_products_online str_other re_compile store _ _ (λ _, true))
      by done.
    do 3 f_equal. apply list_filter_iff. intros s.
    unfold category_ok, title_ok. simpl. naive_solver.
  - rewrite (list_blog_online str_other re_compile store) by done.
    do 4 f_equal. apply list_filter_iff. intros s.
    unfold category_ok. simpl. naive_solver.
Qed.

Lemma empty_parameter_is_omitted_witness :
  let noir := mkStored 1 (MProduct (Product.mk "Hoodie Noir" None 89 Hoodies [] [] [] true)) in
  let gris := mkStored 2 (MProduct (Product.mk "Hoodie Gris" None 79 Hoodies [] [] [] false)) in
  let db := mkDatabase {["product" := [noir; gris]]} true 3 in
  online db = true ∧
  list_products str_scalar wildcard_compile (Some db) (Some "") (Some "")
    = Ok (returned str_scalar <$> [noir]).
Proof.
  intros noir gris db. split; [reflexivity|].
  destruct (empty_parameter_is_omitted str_scalar wildcard_compile (Some db) None None)
    as (_ & _ & _ & H).
  destruct (H db eq_refl) as [-> _].
  do 2 f_equal; vm_compute; reflexivity.
Defined.

(** ** Listing blog posts *)

Lemma collection_insert_one name m db name' :
  collection (insert_one name m db) name' =
    if decide (name = name')
    then collection db name ++ [mkStored (next_id db) m]
    else collection db name'.
Proof.
  unfold collection at 1. simpl. destruct (decide (name = name')) as [<-|Hne].
  - by rewrite lookup_insert_eq.
  - by rewrite lookup_insert_ne.
Qed.

Lemma insert_sorted_desc x l :
  StronglySorted (λ a b, (_id b ≤ _id a)%N) l →
  StronglySorted (λ a b, (_id b ≤ _id a)%N) (insert_sorted (λ a b, (b <? a)%N) x l).
Proof.
  induction 1 as [|y l Hl IH Hy]; simpl; [by repeat constructor|].
  destruct (_id x <? _id y)%N eqn:E.
  - apply N.ltb_lt in E. constructor; [done|].
    apply Forall_forall. intros z [->|Hz]%insert_sorted_elem; [lia|].
    by apply (proj1 (Forall_forall _ _) Hy).
  - apply N.ltb_ge in E. constructor; [by constructor|].
    constructor; [done|]. eapply Forall_impl; [exact Hy|]. simpl. lia.
Qed.

Lemma sort_by_id_desc_sorted l :
  StronglySorted (λ a b, (_id b ≤ _id a)%N) (sort_by_id (-1) l).
Proof.
  unfold sort_by_id. simpl. induction l as [|x l IH]; simpl; [constructor|].
  by apply insert_sorted_desc.
Qed.

Lemma StronglySorted_take {A} (R : A → A → Prop) n l :
  StronglySorted R l → StronglySorted R (take n l).
Proof.
  intros Hl. revert n. induction Hl as [|x l Hl IH Hx]; intros [|n]; simpl;
    try constructor; [done|].
  apply Forall_forall. intros y Hy%subseteq_take.
  by apply (proj1 (Forall_forall _ _) Hx).
Qed.

(** What is cut off by a limit comes after what is kept, and something is
    cut off only from a full page. *)
Lemma elem_of_cut_off {A} n (l : list A) y :
  y ∈ l → y ∉ take n l → y ∈ drop n l ∧ length (take n l) = n.
Proof.
  intros Hy Hny.
  assert (Hdrop : y ∈ drop n l).
  { rewrite <- (take_drop n l) in Hy. apply elem_of_app in Hy as [?|?]; done. }
  split; [done|]. apply length_take_le.
  destruct (decide (n ≤ length l)) as [|Hlt]; [done|].
  rewrite drop_ge in Hdrop by lia. by apply elem_of_nil in Hdrop.
Qed.

Lemma sorted_take_before {A} (R : A → A → Prop) n (l : list A) x y :
  StronglySorted R l → x ∈ take n l → y ∈ l → y ∉ take n l → R x y.
Proof.
  intros Hl Hx Hy Hny. destruct (elem_of_cut_off n l y Hy Hny) as [Hdrop _].
  rewrite <- (take_drop n l) in Hl.
  by apply (StronglySorted_app_1_elem_of R _ _ x y Hl).
Qed.

(** C8, as the code has it: every record [list_blog] returns comes from a
    stored post whose [published] is true, and shows [published = true]
    itself; when a category is asked for, the stored category of every
    returned record is that very string; at most 50 records are returned;
    they are in order of identifier, greatest first, and a matching post
    that is left out has an identifier no greater than any of the 50
    returned. *)
Theorem list_blog_published_by_id str_other re_compile db category rs :
  list_blog str_other re_compile db category = Ok rs →
  length rs ≤ 50 ∧
  ∃ store posts, db = Some store ∧
    rs = returned str_other <$> posts ∧
    (∀ s, s ∈ posts →
       ∃ doc, s ∈ collection store "blogpost" ∧
         returned str_other s = Some doc ∧
         stored_published s = true ∧
         doc !! "published" = Some (VBool true) ∧
         (truthy category = true →
            stored_category s = category ∧
            doc !! "category" = VStr <$> category)) ∧
    StronglySorted (λ a b, (_id b ≤ _id a)%N) posts ∧
    (∀ s, s ∈ collection store "blogpost" →
       stored_published s = true → category_ok category s = true →
       s ∉ posts →
       length posts = 50 ∧ Forall (λ p, (_id s ≤ _id p)%N) posts).
Proof.
  intros Hrs.
  destruct (list_blog_inv str_other re_compile db category rs Hrs)
    as (store & -> & Hon).
  rewrite (list_blog_online str_other re_compile store) in Hrs by done.
  injection Hrs as <-.
  split. { rewrite length_fmap, length_take. lia. }
  eexists store, _. split; [done|]. split; [done|]. split; [|split].
  - intros s Hs.
    apply subseteq_take, sort_by_id_elem, list_elem_of_filter in Hs
      as [(Hpub & Hcat) Hs].
    destruct (returned_field str_other s "published") as (doc & Hdoc & Hp); [done..|].
    destruct (returned_field str_other s "category") as (doc' & Hdoc' & Hc); [done..|].
    rewrite Hdoc in Hdoc'. injection Hdoc' as <-.
    assert (Hcategory : truthy category = true →
              stored_category s = category ∧ doc !! "category" = VStr <$> category).
    { intros Ht. unfold category_ok in Hcat. rewrite Ht in Hcat. simpl in Hcat.
      apply bool_decide_eq_true in Hcat. split; [done|].
      rewrite Hc, to_dict_category, Hcat. by destruct category. }
    exists doc. split; [done|]. split; [done|]. split; [done|]. split; [|done].
    rewrite Hp, to_dict_published. unfold stored_published in Hpub.
    destruct (data s); try done. by rewrite Hpub.
  - apply StronglySorted_take, sort_by_id_desc_sorted.
  - intros s Hs Hpub Hcat Hout.
    assert (Hin : s ∈ sort_by_id (-1)
                    (filter (λ s, stored_published s = true ∧
                                  category_ok category s = true)
                       (collection store "blogpost"))).
    { apply sort_by_id_elem, list_elem_of_filter. done. }
    split.
    + by destruct (elem_of_cut_off 50 _ s Hin Hout).
    + apply Forall_forall. intros p Hp.
      eapply (sorted_take_before (λ a b, (_id b ≤ _id a)%N) 50);
        [apply sort_by_id_desc_sorted|exact Hp|exact Hin|exact Hout].
Qed.

Lemma list_blog_published_by_id_witness :
  let first := mkStored 1 (MBlogPost (BlogPost.mk "Drop 1" "drop-1" "..." Drops None true)) in
  let draft := mkStored 2 (MBlogPost (BlogPost.mk "Draft" "draft" "..." Drops None false)) in
  let last := mkStored 3 (MBlogPost (BlogPost.mk "Drop 2" "drop-2" "..." Drops None true)) in
  let db := mkDatabase {["blogpost" := [first; draft; last]]} true 4 in
  let rs := returned str_scalar <$> [last; first] in
  list_blog str_scalar wildcard_compile (Some db) None = Ok rs ∧
  length rs ≤ 50.
Proof.
  intros first draft last db rs.
  assert (H : list_blog str_scalar wildcard_compile (Some db) None = Ok rs).
  { rewrite (list_blog_online str_scalar wildcard_compile db) by reflexivity.
    unfold rs. do 2 f_equal; vm_compute; reflexivity. }
  split; [exact H|].
  exact (proj1 (list_blog_published_by_id str_scalar wildcard_compile
                  (Some db) None rs H)).
Defined.

(** C8 fails as stated: of two published posts, the one inserted first
    carries the greater identifier; it is returned first, although it is the
    older one. *)
Lemma list_blog_insertion_order_counterexample :
  let older := mkStored 7 (MBlogPost (BlogPost.mk "Drop 1" "drop-1" "..." Drops None true)) in
  let newer := mkStored 3 (MBlogPost (BlogPost.mk "Drop 2" "drop-2" "..." Drops None true)) in
  let db := mkDatabase {["blogpost" := [older; newer]]} true 8 in
  collection db "blogpost" = [older; newer] ∧
  list_blog str_scalar wildcard_compile (Some db) None
    = Ok (returned str_scalar <$> [older; newer]) ∧
  returned str_scalar <$> [older; newer] ≠ returned str_scalar <$> [newer; older].
Proof.
  intros older newer db. split; [reflexivity|]. split.
  - rewrite (list_blog_online str_scalar wildcard_compile db) by reflexivity.
    do 2 f_equal; vm_compute; reflexivity.
  - intros H.
    apply (f_equal (fmap (λ r : option document, r ≫= (.!! "id")))) in H.
    vm_compute in H. discriminate.
Qed.

(** ** Seeding *)

Lemma filter_all {A} (P : A → Prop) `{!∀ x, Decision (P x)} (l : list A) :
  (∀ x, P x) → filter P l = l.
Proof.
  intros HP. induction l as [|x l IH]; [done|].
  by rewrite filter_cons_True, IH.
Qed.

Lemma count_documents_all re_compile db name :
  online db = true →
  count_documents re_compile db name ∅ = inr (length (collection db name)).
Proof.
  intros Hon. unfold count_documents.
  rewrite fetch_online; simpl; [|done|apply map_Forall_empty].
  rewrite filter_all by (intros s; apply map_Forall_empty).
  by rewrite length_fmap.
Qed.

Lemma seed_loop_inserts ps : ∀ n db,
  online db = true →
  ∃ db',
    seed_loop ps n (Some db)
      = (Ok {["inserted" := VInt (n + Z.of_nat (length ps))]}, Some db') ∧
    online db' = true ∧
    data <$> collection db' "product"
      = (data <$> collection db "product") ++ (MProduct <$> ps) ∧
    (∀ name, name ≠ "product" → collection db' name = collection db name).
Proof.
  induction ps as [|p ps IH]; intros n db Hon; simpl.
  - exists db. rewrite Z.add_0_r, app_nil_r. done.
  - rewrite Hon.
    destruct (IH (n + 1)%Z (insert_one "product" (MProduct p) db) Hon)
      as (db' & -> & Hon' & Hdata & Hother).
    exists db'. split; [do 4 f_equal; lia|]. split; [done|]. split.
    + rewrite Hdata, collection_insert_one. rewrite decide_True by done.
      by rewrite fmap_app, <- app_assoc.
    + intros name Hne. rewrite Hother, collection_insert_one by done.
      by rewrite decide_False.
Qed.

(** C6: on a reachable store whose product collection is empty, [seed]
    inserts the three demo products, in their order and nothing else,
    touches no other collection, and returns [{"inserted": 3}]; called again
    on the store it left, it inserts nothing and returns [inserted = 0] with
    the message that products already exist.  On any store whose product
    collection is not empty it changes nothing and returns that same
    answer. *)
Theorem seed_inserts_three_once re_compile db :
  online db = true →
  (collection db "product" = [] →
     ∃ db',
       seed re_compile (Some db) = (Ok {["inserted" := VInt 3]}, Some db') ∧
       data <$> collection db' "product" = MProduct <$> demo_products ∧
       length (collection db' "product") = 3 ∧
       (∀ name, name ≠ "product" → collection db' name = collection db name) ∧
       seed re_compile (Some db') =
         (Ok (<["message" := VStr "Products already exist"]>
                {["inserted" := VInt 0]}), Some db')) ∧
  (collection db "product" ≠ [] →
     seed re_compile (Some db) =
       (Ok (<["message" := VStr "Products already exist"]>
              {["inserted" := VInt 0]}), Some db)).
Proof.
  intros Hon.
  assert (Hfull : ∀ d, online d = true → collection d "product" ≠ [] →
            seed re_compile (Some d) =
              (Ok (<["message" := VStr "Products already exist"]>
                     {["inserted" := VInt 0]}), Some d)).
  { intros d Hd Hne. unfold seed. rewrite count_documents_all by done.
    destruct (collection d "product"); done. }
  split; [|by apply Hfull].
  intros Hempty.
  destruct (seed_loop_inserts demo_products 0 db Hon)
    as (db' & Hloop & Hon' & Hdata & Hother).
  rewrite Hempty in Hdata. simpl in Hdata.
  assert (Hlen : length (collection db' "product") = 3).
  { by rewrite <- (length_fmap data), Hdata. }
  exists db'. split.
  { unfold seed. rewrite count_documents_all, Hempty by done. exact Hloop. }
  split; [done|]. split; [done|]. split; [done|].
  apply Hfull; [done|]. intros Hnil. by rewrite Hnil in Hlen.
Qed.

Lemma seed_inserts_three_once_witness :
  let db := mkDatabase ∅ true 0 in
  online db = true ∧ collection db "product" = [] ∧
  ∃ db', seed wildcard_compile (Some db) = (Ok {["inserted" := VInt 3]}, Some db') ∧
    length (collection db' "product") = 3.
Proof.
  intros db. split; [reflexivity|]. split; [reflexivity|].
  destruct (proj1 (seed_inserts_three_once wildcard_compile db eq_refl) eq_refl)
    as (db' & Hseed & _ & Hlen & _).
  exists db'. split; [exact Hseed | exact Hlen].
Defined.

(** ** Minor units *)

Lemma round_half_even_nearest m d :
  (0 < d)%Z → nearest_even m d (round_half_even m d).
Proof.
  intros Hd. unfold nearest_even, round_half_even.
  pose proof (Z.div_mod m d ltac:(lia)) as Hm.
  pose proof (Z.mod_pos_bound m d Hd) as Hr.
  set (q := (m / d)%Z) in *. set (r := (m mod d)%Z) in *.
  destruct (2 * r <? d)%Z eqn:H1; [apply Z.ltb_lt in H1; split; nia|].
  apply Z.ltb_ge in H1.
  destruct (d <? 2 * r)%Z eqn:H2; [apply Z.ltb_lt in H2; split; nia|].
  apply Z.ltb_ge in H2.
  destruct (Z.even q) eqn:He; [split; [nia|done]|].
  split; [nia|]. intros _. rewrite Z.even_add, He. done.
Qed.

Lemma nearest_even_opp num den n :
  nearest_even num den n → nearest_even (- num) den (- n).
Proof.
  unfold nearest_even. rewrite Z.even_opp.
  replace (- n * den - - num)%Z with (- (n * den - num))%Z by lia.
  by rewrite Z.abs_opp.
Qed.

(** [round] returns the nearest integer of every finite float, ties to
    even, and raises on the others. *)
Lemma py_round_nearest x num den :
  float_fraction x = Some (num, den) →
  ∃ n, py_round x = inr n ∧ nearest_even num den n.
Proof.
  unfold float_fraction, py_round.
  destruct (Prim2SF x) as [s|s| |s m e]; try done.
  - intros [= <- <-]. exists 0%Z. split; [done|]. split; simpl; lia.
  - assert (Hpos : ∀ k, (0 < 2 ^ Z.pos k)%Z) by (intros k; apply Z.pow_pos_nonneg; lia).
    destruct e as [|k|k]; intros [= <- <-]; eexists; (split; [reflexivity|]).
    + destruct s; split; simpl; lia.
    + destruct s.
      * replace (Z.neg m * 2 ^ Z.pos k)%Z with (- (Z.pos m * 2 ^ Z.pos k))%Z by lia.
        apply nearest_even_opp. split; lia.
      * split; lia.
    + destruct s.
      * change (Z.neg m) with (- Z.pos m)%Z.
        apply nearest_even_opp, round_half_even_nearest, Hpos.
      * apply round_half_even_nearest, Hpos.
Qed.

Lemma py_round_raises x :
  float_fraction x = None → ∃ e, py_round x = inl e.
Proof.
  unfold float_fraction, py_round.
  destruct (Prim2SF x) as [s|s| |s m e]; try done; by eexists.
Qed.

Lemma line_item_spec currency i num den :
  float_fraction (CartItem.unit_price i * 100) = Some (num, den) →
  ∃ li, line_item currency i = inr li ∧ line_item_of currency i li.
Proof.
  intros Hfrac. destruct (py_round_nearest _ _ _ Hfrac) as (n & Hn & Hnear).
  unfold line_item. rewrite Hn. eexists. split; [reflexivity|].
  split; [by rewrite lookup_insert_eq|].
  eexists _, n, num, den. split.
  { by rewrite lookup_insert_ne, lookup_singleton_eq. }
  split. { by rewrite !lookup_insert_ne, lookup_singleton_eq. }
  split. { by rewrite lookup_insert_eq. }
  done.
Qed.

Lemma line_items_spec currency items :
  Forall (λ i, is_Some (float_fraction (CartItem.unit_price i * 100))) items →
  ∃ lis, line_items currency items = inr lis ∧
         Forall2 (line_item_of currency) items lis.
Proof.
  induction 1 as [|i items [[num den] Hi] _ (lis & Hlis & IH)]; simpl.
  - by exists [].
  - destruct (line_item_spec currency i num den Hi) as (li & -> & Hli).
    rewrite Hlis. exists (li :: lis). split; [done|]. by constructor.
Qed.

Lemma line_items_raises currency items :
  Exists (λ i, float_fraction (CartItem.unit_price i * 100) = None) items →
  ∃ e, line_items currency items = inl e.
Proof.
  induction 1 as [i items Hi|i items _ [e IH]]; simpl.
  - destruct (py_round_raises _ Hi) as [e He].
    unfold line_item. rewrite He. by eexists.
  - destruct (line_item currency i); [by eexists|]. rewrite IH. by eexists.
Qed.

(** A price that is infinite or not a number: the conversion raises, the
    route answers 500 and the processor is not called. *)
Lemma checkout_non_finite_price stripe_backend environ payload stripe secret :
  environ !! "STRIPE_SECRET_KEY" = Some secret → secret ≠ "" →
  Exists (λ i, float_fraction (CartItem.unit_price i * 100) = None)
    (CheckoutIn.items payload) →
  ∃ e, create_checkout_session stripe_backend environ payload stripe
       = (HTTPException 500 e, stripe).
Proof.
  intros Henv Hsecret Hbad.
  destruct (line_items_raises (CheckoutIn.currency payload) _ Hbad) as [e He].
  exists e. unfold create_checkout_session, getenv. rewrite Henv, He.
  by destruct secret.
Qed.

(** C5: with a credential configured, every cart line whose unit price is a
    finite number becomes a line item that keeps the quantity and carries as
    unit amount the integer nearest (ties to even) to the float product of
    the unit price by 100, and these line items are what the processor is
    asked to open a session for.  A line of 2 at 19.99 becomes a line item
    of quantity 2 and unit amount 1999. *)
Theorem checkout_minor_units stripe_backend :
  (∀ environ payload stripe secret,
     environ !! "STRIPE_SECRET_KEY" = Some secret → secret ≠ "" →
     Forall (λ i, is_Some (float_fraction (CartItem.unit_price i * 100)))
       (CheckoutIn.items payload) →
     ∃ lis,
       Forall2 (line_item_of (CheckoutIn.currency payload))
         (CheckoutIn.items payload) lis ∧
       create_checkout_session stripe_backend environ payload stripe =
         match Session_create stripe_backend secret
                 (mkParams "payment" lis (CheckoutIn.success_url payload)
                    (CheckoutIn.cancel_url payload)) stripe
         with
         | (inl e, stripe') => (HTTPException 500 e, stripe')
         | (inr session, stripe') =>
             (Ok (<["url" := VStr (session_url session)]>
                    {["id" := VStr (session_id session)]}), stripe')
         end) ∧
  line_items "eur" [CartItem.mk "p1" "SEYA Tee" 2 19.99 None] =
    inr [<["quantity" := VInt 2]>
           {["price_data" :=
              VDoc (<["unit_amount" := VInt 1999]>
                   (<["product_data" := VDoc {["name" := VStr "SEYA Tee"]}]>
                   {["currency" := VStr "eur"]}))]}].
Proof.
  split; [|vm_compute; reflexivity].
  intros environ payload stripe secret Henv Hsecret Hfinite.
  destruct (line_items_spec (CheckoutIn.currency payload) _ Hfinite)
    as (lis & Hlis & Hall).
  exists lis. split; [done|].
  unfold create_checkout_session, getenv. rewrite Henv, Hlis.
  destruct secret; [done|]. done.
Qed.

Lemma checkout_minor_units_witness :
  let environ : gmap string string := {["STRIPE_SECRET_KEY" := "sk_test_1"]} in
  let payload := CheckoutIn.mk [CartItem.mk "p1" "SEYA Tee" 2 19.99 None] "eur"
                   "https://shop/ok" "https://shop/cancel" in
  environ !! "STRIPE_SECRET_KEY" = Some "sk_test_1" ∧ "sk_test_1" ≠ "" ∧
  Forall (λ i, is_Some (float_fraction (CartItem.unit_price i * 100)))
    (CheckoutIn.items payload) ∧
  ∃ lis, Forall2 (line_item_of "eur") (CheckoutIn.items payload) lis ∧
    (create_checkout_session accepting_backend environ payload []).2
      = [mkParams "payment" lis "https://shop/ok" "https://shop/cancel"].
Proof.
  intros environ payload.
  assert (H1 : environ !! "STRIPE_SECRET_KEY" = Some "sk_test_1") by reflexivity.
  assert (H2 : "sk_test_1" ≠ "") by discriminate.
  assert (H3 : Forall (λ i, is_Some (float_fraction (CartItem.unit_price i * 100)))
                 (CheckoutIn.items payload)).
  { repeat constructor. vm_compute. eexists. reflexivity. }
  split; [exact H1|]. split; [exact H2|]. split; [exact H3|].
  destruct (proj1 (checkout_minor_units accepting_backend) environ payload [] _
              H1 H2 H3) as (lis & Hall & Hrun).
  exists lis. split; [exact Hall|]. rewrite Hrun. reflexivity.
Defined.

(** ** Checkout without a credential *)

(** C9: when the environment holds no payment credential (the variable is
    unset or empty), checkout answers 400 whatever the payload and whatever
    the processor would have said, and the processor has created no session:
    its record of sessions is the one it had before the request. *)
Theorem checkout_without_credential stripe_backend environ payload stripe :
  environ !! "STRIPE_SECRET_KEY" = None ∨ environ !! "STRIPE_SECRET_KEY" = Some "" →
  let r := create_checkout_session stripe_backend environ payload stripe in
  r.1 = HTTPException 400 "Stripe not configured" ∧ status r.1 = 400%Z ∧ r.2 = stripe.
Proof.
  intros Henv. unfold create_checkout_session, getenv.
  destruct Henv as [-> | ->]; cbn; done.
Qed.

Lemma checkout_without_credential_witness :
  let environ : gmap string string := {["DATABASE_URL" := "mongodb://localhost"]} in
  let payload := CheckoutIn.mk [CartItem.mk "p1" "SEYA Tee" 2 19.99 None] "eur"
                   "https://shop/ok" "https://shop/cancel" in
  (environ !! "STRIPE_SECRET_KEY" = None ∨ environ !! "STRIPE_SECRET_KEY" = Some "") ∧
  status (create_checkout_session accepting_backend environ payload []).1 = 400%Z ∧
  (create_checkout_session accepting_backend environ payload []).2 = [].
Proof.
  intros environ payload.
  assert (H : environ !! "STRIPE_SECRET_KEY" = None ∨
              environ !! "STRIPE_SECRET_KEY" = Some "") by (left; reflexivity).
  split; [exact H |].
  destruct (checkout_without_credential accepting_backend environ payload [] H)
    as (_ & Hs & Hp).
  split; [exact Hs | exact Hp].
Defined.

(** * Further properties of the handlers *)

(** ** [serialize] *)

(** Every field of a serialized document, in one equation. *)
Lemma serialize_lookup str_other (doc d : document) k :
  serialize str_other (Some doc) = Some d →
  d !! k =
    if decide (k = "_id") then None
    else if decide (k = "id") then
      match doc !! "_id" with
      | Some x => Some (VStr (py_str str_other x))
      | None => stringify_top <$> doc !! "id"
      end
    else stringify_top <$> doc !! k.
Proof.
  destruct (decide (doc = ∅)) as [->|Hne].
  - intros [= <-]. rewrite !lookup_empty. by repeat case_decide.
  - destruct (serialize_fields str_other doc Hne) as (d' & -> & Hno & Hid & Hid' & Hk).
    intros [= <-]. repeat case_decide; subst; try done.
    + destruct (doc !! "_id") eqn:E; [by apply Hid|by apply Hid'].
    + by apply Hk.
Qed.

Lemma serialize_field_not_oid str_other (doc d : document) k o :
  serialize str_other (Some doc) = Some d → d !! k ≠ Some (VOid o).
Proof.
  intros Hd. rewrite (serialize_lookup str_other doc d k Hd).
  repeat case_decide; try done.
  - destruct (doc !! "_id"); [done|]. by destruct (doc !! "id") as [[]|].
  - by destruct (doc !! k) as [[]|].
Qed.

(** X4: no field of a serialized document holds an identifier: whatever the
    input, each identifier that was the value of a field has become a
    string. *)
Theorem serialize_no_identifier_field str_other (doc d : document) :
  serialize str_other (Some doc) = Some d →
  map_Forall (λ _ v, ∀ o, v ≠ VOid o) d.
Proof.
  intros Hd k v Hv o ->.
  by apply (serialize_field_not_oid str_other doc d k o Hd).
Qed.

Lemma serialize_no_identifier_field_witness :
  let doc : document := <["_id" := VOid 1]> {["owner" := VOid 2]} in
  let d : document := <["id" := VStr "000000000000000000000001"]>
                        {["owner" := VStr "000000000000000000000002"]} in
  serialize str_scalar (Some doc) = Some d ∧
  map_Forall (λ _ v, ∀ o, v ≠ VOid o) d.
Proof.
  intros doc d.
  assert (H : serialize str_scalar (Some doc) = Some d) by (vm_compute; reflexivity).
  split; [exact H|].
  exact (serialize_no_identifier_field str_scalar doc d H).
Defined.

(** X1: serializing twice is serializing once. *)
Theorem serialize_idempotent str_other (doc : option document) :
  serialize str_other (serialize str_other doc) = serialize str_other doc.
Proof.
  destruct doc as [doc|]; [|done].
  destruct (serialize str_other (Some doc)) as [d|] eqn:Hd; [|done].
  destruct (serialize str_other (Some d)) as [d'|] eqn:Hd';
    [|by destruct (size d =? 0)%nat eqn:E; unfold serialize in Hd'; rewrite E in Hd'].
  f_equal. apply map_eq. intros k.
  rewrite (serialize_lookup str_other d d' k Hd').
  assert (Hfix : ∀ k', stringify_top <$> d !! k' = d !! k').
  { intros k'. destruct (d !! k') as [v|] eqn:E; [|done]. simpl.
    destruct v; try done.
    by destruct (serialize_field_not_oid str_other doc d k' o Hd). }
  assert (Hno : d !! "_id" = None).
  { rewrite (serialize_lookup str_other doc d "_id" Hd). by case_decide. }
  repeat case_decide; subst; try done.
  by rewrite Hno, Hfix.
Qed.

(** X2: the keys of a serialized document are those of the input, with
    ["_id"] removed and ["id"] added when the input had an ["_id"]. *)
Theorem serialize_keys str_other (doc d : document) :
  serialize str_other (Some doc) = Some d →
  dom d = (dom doc ∖ {["_id"]}) ∪
          (if decide ("_id" ∈ dom doc) then {["id"]} else ∅).
Proof.
  intros Hd. apply set_eq. intros k.
  rewrite elem_of_union, elem_of_difference, !elem_of_dom, not_elem_of_singleton.
  rewrite (serialize_lookup str_other doc d k Hd).
  destruct (decide ("_id" ∈ dom doc)) as [Hin|Hin];
    rewrite elem_of_dom in Hin.
  - destruct Hin as [x Hx]. rewrite elem_of_singleton.
    repeat case_decide; subst; rewrite ?Hx, ?fmap_is_Some.
    + split; [by intros [? ?]|]. intros [[_ ?]|?]; done.
    + split; [by right|by eexists].
    + naive_solver.
  - apply eq_None_not_Some in Hin.
    repeat case_decide; subst; rewrite ?Hin, ?fmap_is_Some.
    + split; [by intros [? ?]|]. intros [[_ ?]|?]; [done|set_solver].
    + split; [intros ?; by left|]. intros [[? _]|?]; [done|set_solver].
    + split; [intros ?; by left|]. intros [[? _]|?]; [done|set_solver].
Qed.

Lemma serialize_keys_witness :
  let doc : document := <["_id" := VOid 1]> {["owner" := VOid 2]} in
  let d : document := <["id" := VStr "000000000000000000000001"]>
                        {["owner" := VStr "000000000000000000000002"]} in
  serialize str_scalar (Some doc) = Some d ∧
  dom d = (dom doc ∖ {["_id"]}) ∪
          (if decide ("_id" ∈ dom doc) then {["id"]} else ∅).
Proof.
  intros doc d.
  assert (H : serialize str_scalar (Some doc) = Some d) by (vm_compute; reflexivity).
  split; [exact H|].
  exact (serialize_keys str_scalar doc d H).
Defined.

(** X3: a document without ["_id"] none of whose fields holds an identifier
    is returned as it is. *)
Theorem serialize_plain_document str_other (doc : document) :
  doc !! "_id" = None →
  (∀ k o, doc !! k ≠ Some (VOid o)) →
  serialize str_other (Some doc) = Some doc.
Proof.
  intros Hno Hplain.
  destruct (serialize str_other (Some doc)) as [d|] eqn:Hd;
    [|by destruct (size doc =? 0)%nat eqn:E; unfold serialize in Hd; rewrite E in Hd].
  f_equal. apply map_eq. intros k.
  rewrite (serialize_lookup str_other doc d k Hd).
  assert (Hfix : ∀ k', stringify_top <$> doc !! k' = doc !! k').
  { intros k'. destruct (doc !! k') as [v|] eqn:E; [|done]. simpl.
    destruct v; try done. by destruct (Hplain k' o). }
  repeat case_decide; subst; try done. by rewrite Hno, Hfix.
Qed.

Lemma serialize_plain_document_witness :
  let doc : document := <["status" := VStr "ok"]> {["count" := VInt 3]} in
  doc !! "_id" = None ∧ (∀ k o, doc !! k ≠ Some (VOid o)) ∧
  serialize str_scalar (Some doc) = Some doc.
Proof.
  intros doc.
  assert (H1 : doc !! "_id" = None) by reflexivity.
  assert (H2 : ∀ k o, doc !! k ≠ Some (VOid o)).
  { intros k o. unfold doc.
    destruct (decide (k = "status")) as [->|?]; [by rewrite lookup_insert_eq|].
    rewrite lookup_insert_ne by done.
    destruct (decide (k = "count")) as [->|?]; [by rewrite lookup_singleton_eq|].
    by rewrite lookup_singleton_ne. }
  split; [exact H1|]. split; [exact H2|].
  exact (serialize_plain_document str_scalar doc H1 H2).
Defined.

(** ** What the listing routes return *)

Lemma model_dump_no_oid m k o : model_dump m !! k ≠ Some (VOid o).
Proof.
  intros H. destruct m as [p|b|msg]; apply elem_of_list_to_map_2 in H;
    repeat (apply elem_of_cons in H as [H|H];
            [injection H as _ H'; unfold opt_value in H';
             repeat case_match; discriminate|]);
    by apply elem_of_nil in H.
Qed.

Lemma model_dump_no_id m : model_dump m !! "_id" = None ∧ model_dump m !! "id" = None.
Proof. destruct m as [p|b|msg]; split; reflexivity. Qed.

(** The record returned for a stored document is its dumped model with the
    identifier, as a string, under ["id"]. *)
Lemma returned_shape str_other s :
  returned str_other s =
    Some (<["id" := VStr (ObjectId_str (_id s))]> (model_dump (data s))).
Proof.
  unfold returned.
  destruct (serialize str_other (Some (to_dict s))) as [d|] eqn:Hd; cycle 1.
  { destruct (serialize_fields str_other _ (to_dict_nonempty s)) as (? & ? & _).
    congruence. }
  f_equal. apply map_eq. intros k.
  rewrite (serialize_lookup str_other _ d k Hd), to_dict_id.
  destruct (model_dump_no_id (data s)) as [H1 H2].
  repeat case_decide; subst.
  - by rewrite lookup_insert_ne.
  - by rewrite lookup_insert_eq.
  - unfold to_dict. rewrite !lookup_insert_ne by done.
    destruct (model_dump (data s) !! k) as [v|] eqn:E; [|done]. simpl.
    destruct v; try done. by destruct (model_dump_no_oid (data s) k o).
Qed.

(** X5: every record of a product or blog listing is the dumped model of a
    stored document of that collection, extended with ["id"], the 24-digit
    string of the document's identifier; it has no ["_id"]. *)
Theorem listing_record_shape str_other re_compile db category q :
  (∀ rs r, list_products str_other re_compile db category q = Ok rs → r ∈ rs →
     ∃ store s, db = Some store ∧ s ∈ collection store "product" ∧
       r = Some (<["id" := VStr (ObjectId_str (_id s))]> (model_dump (data s)))) ∧
  (∀ rs r, list_blog str_other re_compile db category = Ok rs → r ∈ rs →
     ∃ store s, db = Some store ∧ s ∈ collection store "blogpost" ∧
       r = Some (<["id" := VStr (ObjectId_str (_id s))]> (model_dump (data s)))).
Proof.
  split; intros rs r Hrs Hr.
  - apply list_products_inv in Hrs as (store & search & -> & Hon & Hre & ->).
    apply list_elem_of_fmap in Hr as (s & -> & Hs).
    apply subseteq_take, list_elem_of_filter in Hs as [_ Hs].
    exists store, s. by rewrite returned_shape.
  - destruct (list_blog_inv str_other re_compile db category rs Hrs)
      as (store & -> & Hon).
    rewrite (list_blog_online str_other re_compile store) in Hrs by done.
    injection Hrs as <-.
    apply list_elem_of_fmap in Hr as (s & -> & Hs).
    apply subseteq_take, sort_by_id_elem, list_elem_of_filter in Hs as [_ Hs].
    exists store, s. by rewrite returned_shape.
Qed.

Lemma listing_record_shape_witness :
  let noir := mkStored 1 (MProduct (Product.mk "Hoodie Noir" None 89 Hoodies [] [] [] true)) in
  let db := mkDatabase {["product" := [noir]]} true 2 in
  let rs := returned str_scalar <$> [noir] in
  list_products str_scalar wildcard_compile (Some db) None None = Ok rs ∧
  returned str_scalar noir ∈ rs ∧
  ∃ store s, Some db = Some store ∧ s ∈ collection store "product" ∧
    returned str_scalar noir
      = Some (<["id" := VStr (ObjectId_str (_id s))]> (model_dump (data s))).
Proof.
  intros noir db rs.
  assert (H : list_products str_scalar wildcard_compile (Some db) None None = Ok rs).
  { rewrite (list_products_online str_scalar wildcard_compile db _ _ (λ _, true));
      [|reflexivity|done].
    unfold rs. do 2 f_equal; vm_compute; reflexivity. }
  assert (Hin : returned str_scalar noir ∈ rs) by (unfold rs; simpl; left).
  split; [exact H|]. split; [exact Hin|].
  exact (proj1 (listing_record_shape str_scalar wildcard_compile (Some db) None None)
           rs _ H Hin).
Defined.

(** X6: whatever identifiers the stored posts have, the blog listing is in
    order of identifier, greatest first: each returned post has an
    identifier no smaller than those of the posts after it. *)
Theorem list_blog_descending_ids str_other re_compile db category rs :
  list_blog str_other re_compile db category = Ok rs →
  ∃ store posts, db = Some store ∧
    rs = returned str_other <$> posts ∧
    posts ⊆ collection store "blogpost" ∧
    StronglySorted (λ a b, (_id b ≤ _id a)%N) posts.
Proof.
  intros Hrs.
  destruct (list_blog_inv str_other re_compile db category rs Hrs)
    as (store & -> & Hon).
  rewrite (list_blog_online str_other re_compile store) in Hrs by done.
  injection Hrs as <-. eexists store, _. split; [done|]. split; [done|]. split.
  - intros s Hs. by apply subseteq_take, sort_by_id_elem, list_elem_of_filter in Hs
      as [_ Hs].
  - apply StronglySorted_take, sort_by_id_desc_sorted.
Qed.

Lemma list_blog_descending_ids_witness :
  let late := mkStored 7 (MBlogPost (BlogPost.mk "Drop 1" "drop-1" "..." Drops None true)) in
  let early := mkStored 3 (MBlogPost (BlogPost.mk "Drop 2" "drop-2" "..." Drops None true)) in
  let db := mkDatabase {["blogpost" := [early; late]]} true 8 in
  let rs := returned str_scalar <$> [late; early] in
  list_blog str_scalar wildcard_compile (Some db) None = Ok rs ∧
  ∃ store posts, Some db = Some store ∧
    rs = returned str_scalar <$> posts ∧
    posts ⊆ collection store "blogpost" ∧
    StronglySorted (λ a b, (_id b ≤ _id a)%N) posts.
Proof.
  intros late early db rs.
  assert (H : list_blog str_scalar wildcard_compile (Some db) None = Ok rs).
  { rewrite (list_blog_online str_scalar wildcard_compile db) by reflexivity.
    unfold rs. do 2 f_equal; vm_compute; reflexivity. }
  split; [exact H|].
  exact (list_blog_descending_ids str_scalar wildcard_compile (Some db) None rs H).
Defined.

(** X7: a query string the store does not accept as a regular expression is
    not answered with a client error: the driver's exception escapes the
    handler and the request ends with status 500. *)
Theorem list_products_rejected_pattern str_other re_compile db category q :
  online db = true →
  q ≠ "" →
  re_compile q "i" = None →
  list_products str_other re_compile (Some db) category (Some q)
    = Unhandled "OperationFailure" ∧
  status (list_products str_other re_compile (Some db) category (Some q)) = 500%Z.
Proof.
  intros Hon Hq Hre.
  assert (Ht : truthy (Some q) = true) by by destruct q.
  assert (H : list_products str_other re_compile (Some db) category (Some q)
              = Unhandled "OperationFailure"); [|by rewrite H].
  change (list_products str_other re_compile (Some db) category (Some q)) with
    (match fetch re_compile
             (limit 100 (find db "product" (products_filter category (Some q))))
     with
     | inl e => Unhandled e
     | inr items => Ok ((λ x, serialize str_other (Some x)) <$> items)
     end).
  rewrite fetch_invalid; [done|done|]. simpl.
  intros Hv%products_filter_valid; [|done].
  destruct Hv as [? Hv]. simpl in Hv. congruence.
Qed.

Lemma list_products_rejected_pattern_witness :
  let db := mkDatabase ∅ true 0 in
  online db = true ∧ "(" ≠ "" ∧ wildcard_compile "(" "i" = None ∧
  status (list_products str_scalar wildcard_compile (Some db) None (Some "(")) = 500%Z.
Proof.
  intros db.
  assert (H : wildcard_compile "(" "i" = None) by reflexivity.
  split; [reflexivity|]. split; [discriminate|]. split; [exact H|].
  exact (proj2 (list_products_rejected_pattern str_scalar wildcard_compile db None "("
                  eq_refl ltac:(discriminate) H)).
Defined.

(** ** Looking a product up, continued *)

Lemma id_filter_matches re_compile o s :
  doc_matches re_compile {["_id" := EqOid o]} (to_dict s) ↔ _id s = o.
Proof.
  unfold doc_matches. rewrite map_Forall_singleton, to_dict_id. simpl.
  rewrite bool_decide_eq_true. naive_solver.
Qed.

(** With a handle, a reachable store and an identifier [ObjectId] accepts,
    the route answers with the first stored product of that identifier, or
    404. *)
Lemma get_product_online bson_ObjectId str_other re_compile db product_id o :
  online db = true →
  bson_ObjectId product_id = Some o →
  get_product bson_ObjectId str_other re_compile (Some db) product_id =
    match head (filter (λ s, _id s = o) (collection db "product")) with
    | Some s => Ok (returned str_other s)
    | None => HTTPException 404 "Product not found"
    end.
Proof.
  intros Hon Hid. unfold get_product, oid, find_one. rewrite Hid.
  rewrite fetch_online; cbn -[serialize size]; [|done|]; cycle 1.
  { unfold query_valid. by rewrite map_Forall_singleton. }
  rewrite (list_filter_iff _ (λ s, _id s = o)) by apply id_filter_matches.
  destruct (filter (λ s, _id s = o) (collection db "product")) as [|s l]; [done|].
  cbn -[serialize size]. destruct (size (to_dict s) =? 0)%nat eqn:E; [|done].
  apply Nat.eqb_eq, map_size_empty_iff in E. by destruct (to_dict_nonempty s).
Qed.

(** X8: an identifier that is well formed but belongs to no stored product
    is answered with 404, and never with 200 or 400. *)
Theorem get_product_absent_id bson_ObjectId str_other re_compile db product_id o :
  online db = true →
  bson_ObjectId product_id = Some o →
  (∀ s, s ∈ collection db "product" → _id s ≠ o) →
  get_product bson_ObjectId str_other re_compile (Some db) product_id
    = HTTPException 404 "Product not found".
Proof.
  intros Hon Hid Habsent.
  rewrite (get_product_online _ _ _ db product_id o) by done.
  destruct (head _) as [s|] eqn:E; [|done].
  apply head_Some_elem_of, list_elem_of_filter in E as [Hs Hin].
  by destruct (Habsent s Hin).
Qed.

Lemma get_product_absent_id_witness :
  let noir := mkStored 1 (MProduct (Product.mk "Hoodie Noir" None 89 Hoodies [] [] [] true)) in
  let db := mkDatabase {["product" := [noir]]} true 2 in
  online db = true ∧
  hex_ObjectId "0000000000000000000000ff" = Some 255%N ∧
  (∀ s, s ∈ collection db "product" → _id s ≠ 255%N) ∧
  get_product hex_ObjectId str_scalar wildcard_compile (Some db)
    "0000000000000000000000ff" = HTTPException 404 "Product not found".
Proof.
  intros noir db.
  assert (H1 : hex_ObjectId "0000000000000000000000ff" = Some 255%N) by reflexivity.
  assert (H2 : ∀ s, s ∈ collection db "product" → _id s ≠ 255%N).
  { intros s Hs. change (collection db "product") with [noir] in Hs.
    apply list_elem_of_singleton in Hs. subst. discriminate. }
  split; [reflexivity|]. split; [exact H1|]. split; [exact H2|].
  exact (get_product_absent_id hex_ObjectId str_scalar wildcard_compile db _ _
           eq_refl H1 H2).
Defined.

Lemma same_id_same_document (l : list Stored) s s' :
  NoDup (_id <$> l) → s ∈ l → s' ∈ l → _id s = _id s' → s = s'.
Proof.
  induction l as [|x l IH]; simpl; [by intros _ ?%elem_of_nil|].
  intros [Hx Hl]%NoDup_cons [->|Hs]%elem_of_cons [->|Hs']%elem_of_cons Heq.
  - done.
  - destruct Hx. rewrite Heq. apply list_elem_of_fmap. by exists s'.
  - destruct Hx. rewrite <- Heq. apply list_elem_of_fmap. by exists s.
  - by apply IH.
Qed.

(** X9: in a collection without duplicate identifiers, looking a stored
    product up by the string of its identifier answers 200 with that
    product's record: its dumped model together with ["id"], the string
    that was asked for. *)
Theorem get_product_found bson_ObjectId str_other re_compile db product_id s :
  online db = true →
  bson_ObjectId product_id = Some (_id s) →
  NoDup (_id <$> collection db "product") →
  s ∈ collection db "product" →
  get_product bson_ObjectId str_other re_compile (Some db) product_id
    = Ok (Some (<["id" := VStr (ObjectId_str (_id s))]> (model_dump (data s)))).
Proof.
  intros Hon Hid Hnd Hs.
  rewrite (get_product_online _ _ _ db product_id (_id s)) by done.
  destruct (head _) as [s'|] eqn:E.
  - apply head_Some_elem_of, list_elem_of_filter in E as [Hs' Hin].
    rewrite <- (same_id_same_document _ s' s Hnd Hin Hs Hs').
    by rewrite returned_shape.
  - apply head_None in E.
    assert (s ∈ filter (λ s0, _id s0 = _id s) (collection db "product"))
      by by apply list_elem_of_filter.
    rewrite E in H. by apply elem_of_nil in H.
Qed.

Lemma get_product_found_witness :
  let noir := mkStored 255 (MProduct (Product.mk "Hoodie Noir" None 89 Hoodies [] [] [] true)) in
  let db := mkDatabase {["product" := [noir]]} true 256 in
  online db = true ∧
  hex_ObjectId "0000000000000000000000ff" = Some (_id noir) ∧
  NoDup (_id <$> collection db "product") ∧
  noir ∈ collection db "product" ∧
  get_product hex_ObjectId str_scalar wildcard_compile (Some db)
    "0000000000000000000000ff"
    = Ok (Some (<["id" := VStr (ObjectId_str (_id noir))]> (model_dump (data noir)))).
Proof.
  intros noir db.
  assert (H1 : hex_ObjectId "0000000000000000000000ff" = Some (_id noir))
    by reflexivity.
  assert (H2 : NoDup (_id <$> collection db "product")).
  { change (collection db "product") with [noir]. simpl.
    apply NoDup_singleton. }
  assert (H3 : noir ∈ collection db "product").
  { change (collection db "product") with [noir]. by left. }
  split; [reflexivity|]. split; [exact H1|]. split; [exact H2|]. split; [exact H3|].
  exact (get_product_found hex_ObjectId str_scalar wildcard_compile db _ noir
           eq_refl H1 H2 H3).
Defined.

Lemma store_wf_fresh db name s :
  store_wf db → s ∈ collection db name → _id s ≠ next_id db.
Proof.
  intros Hwf Hs. destruct (Hwf name) as [_ Hlt].
  pose proof (proj1 (Forall_forall _ _) Hlt s Hs). simpl in *. lia.
Qed.

(** X10: a product stored with [create_document] can be read back: on a
    well-formed store, looking up the identifier the store assigned answers
    with exactly the dumped product and that identifier under ["id"]. *)
Theorem create_then_get_product bson_ObjectId str_other re_compile db db' p product_id :
  store_wf db →
  create_document "product" (MProduct p) (Some db) = inr db' →
  bson_ObjectId product_id = Some (next_id db) →
  get_product bson_ObjectId str_other re_compile db' product_id
    = Ok (Some (<["id" := VStr (ObjectId_str (next_id db))]>
                  (model_dump (MProduct p)))).
Proof.
  intros Hwf Hcreate Hid. unfold create_document in Hcreate.
  destruct (online db) eqn:Hon; [|done]. injection Hcreate as <-.
  rewrite (get_product_online _ _ _ _ product_id (next_id db)) by done.
  rewrite collection_insert_one, decide_True by done.
  rewrite filter_app.
  assert (filter (λ s, _id s = next_id db) (collection db "product") = []) as ->.
  { apply head_None. destruct (head _) as [s|] eqn:E; [|done].
    apply head_Some_elem_of, list_elem_of_filter in E as [Hs Hin].
    by destruct (store_wf_fresh db "product" s Hwf Hin). }
  simpl. rewrite filter_cons_True by done. simpl. by rewrite returned_shape.
Qed.

Lemma create_then_get_product_witness :
  let db := mkDatabase ∅ true 255 in
  let p := Product.mk "Hoodie Noir" None 89 Hoodies [] [] [] true in
  store_wf db ∧
  create_document "product" (MProduct p) (Some db)
    = inr (Some (insert_one "product" (MProduct p) db)) ∧
  hex_ObjectId "0000000000000000000000ff" = Some (next_id db) ∧
  get_product hex_ObjectId str_scalar wildcard_compile
    (Some (insert_one "product" (MProduct p) db)) "0000000000000000000000ff"
    = Ok (Some (<["id" := VStr (ObjectId_str (next_id db))]>
                  (model_dump (MProduct p)))).
Proof.
  intros db p.
  assert (H1 : store_wf db).
  { intros name. unfold collection, db. simpl. rewrite lookup_empty. simpl.
    split; constructor. }
  assert (H2 : create_document "product" (MProduct p) (Some db)
               = inr (Some (insert_one "product" (MProduct p) db))) by reflexivity.
  assert (H3 : hex_ObjectId "0000000000000000000000ff" = Some (next_id db))
    by reflexivity.
  split; [exact H1|]. split; [exact H2|]. split; [exact H3|].
  exact (create_then_get_product hex_ObjectId str_scalar wildcard_compile db _ p _
           H1 H2 H3).
Defined.

(** ** An unreachable store *)

(** X11: when the server does not answer, every route that reads the store
    ends with status 500 through the driver's exception (for a product
    lookup, provided the identifier is well formed), [seed] inserts nothing,
    and [contact_submit] answers 500 and stores nothing even for a valid
    address. *)
Theorem unreachable_store_is_500
    bson_ObjectId str_other re_compile EmailStr db category q product_id payload :
  online db = false →
  status (list_products str_other re_compile (Some db) category q) = 500%Z ∧
  status (list_blog str_other re_compile (Some db) category) = 500%Z ∧
  (is_Some (bson_ObjectId product_id) →
   status (get_product bson_ObjectId str_other re_compile (Some db) product_id)
     = 500%Z) ∧
  (status (seed re_compile (Some db)).1 = 500%Z ∧
   (seed re_compile (Some db)).2 = Some db) ∧
  (status (contact_submit EmailStr payload (Some db)).1 = 500%Z ∧
   (contact_submit EmailStr payload (Some db)).2 = Some db).
Proof.
  intros Hoff. repeat split.
  - unfold list_products. by rewrite fetch_offline.
  - unfold list_blog. by rewrite fetch_offline.
  - intros [o Ho]. unfold get_product, oid, find_one. rewrite Ho.
    by rewrite fetch_offline.
  - unfold seed, count_documents. by rewrite fetch_offline.
  - unfold seed, count_documents. by rewrite fetch_offline.
  - unfold contact_submit, create_document. rewrite Hoff.
    by destruct (Message_new EmailStr payload).
  - unfold contact_submit, create_document. rewrite Hoff.
    by destruct (Message_new EmailStr payload).
Qed.

Lemma unreachable_store_is_500_witness :
  let db := mkDatabase ∅ false 0 in
  online db = false ∧
  status (list_products str_scalar wildcard_compile (Some db) None None) = 500%Z ∧
  (seed wildcard_compile (Some db)).2 = Some db.
Proof.
  intros db.
  destruct (unreachable_store_is_500 hex_ObjectId str_scalar wildcard_compile
              at_EmailStr db None None ""
              (ContactIn.mk "Ada" "ada@example.org" "Hello" "A question") eq_refl)
    as (H1 & _ & _ & [_ H2] & _).
  split; [reflexivity|]. split; [exact H1 | exact H2].
Defined.

(** ** Writes *)

Lemma list_products_ext str_other re_compile d1 d2 category q :
  online d1 = online d2 →
  collection d1 "product" = collection d2 "product" →
  list_products str_other re_compile (Some d1) category q
    = list_products str_other re_compile (Some d2) category q.
Proof.
  intros Hon Hcoll. unfold list_products, fetch, limit, find.
  cbn -[serialize]. by rewrite Hon, Hcoll.
Qed.

Lemma list_blog_ext str_other re_compile d1 d2 category :
  online d1 = online d2 →
  collection d1 "blogpost" = collection d2 "blogpost" →
  list_blog str_other re_compile (Some d1) category
    = list_blog str_other re_compile (Some d2) category.
Proof.
  intros Hon Hcoll. unfold list_blog, fetch, limit, sort_id, find.
  cbn -[serialize]. by rewrite Hon, Hcoll.
Qed.

(** What [contact_submit] does, case by case. *)
Lemma contact_submit_cases EmailStr payload db :
  (∃ e, contact_submit EmailStr payload db = (HTTPException 500 e, db)) ∨
  (∃ d addr,
     db = Some d ∧ online d = true ∧
     EmailStr (ContactIn.email payload) = inr addr ∧
     contact_submit EmailStr payload db =
       (Ok {["status" := VStr "ok"]},
        Some (insert_one "message"
                (MMessage (Message.mk (ContactIn.name payload) addr
                             (ContactIn.subject payload)
                             (ContactIn.message payload) Contact)) d))).
Proof.
  unfold contact_submit, Message_new, create_document.
  destruct (EmailStr (ContactIn.email payload)) as [e|addr] eqn:He.
  { left. by eexists. }
  destruct db as [d|]; [|left; by eexists].
  destruct (online d) eqn:Hon; [|left; by eexists].
  right. by exists d, addr.
Qed.

(** X12: [contact_submit] answers 200 or 500 and nothing else.  With 500
    the store is left as it was.  With 200 exactly one document was added,
    to the [message] collection and at its end: the payload's name, subject
    and message, the address as [EmailStr] returned it, and the source
    ["contact"]; every other collection is as it was. *)
Theorem contact_submit_outcomes EmailStr payload db :
  let r := contact_submit EmailStr payload db in
  (status r.1 = 500%Z ∧ r.2 = db) ∨
  (status r.1 = 200%Z ∧
   ∃ d d' addr,
     db = Some d ∧ r.2 = Some d' ∧
     EmailStr (ContactIn.email payload) = inr addr ∧
     collection d' "message" =
       collection d "message" ++
       [mkStored (next_id d)
          (MMessage (Message.mk (ContactIn.name payload) addr
                       (ContactIn.subject payload) (ContactIn.message payload)
                       Contact))] ∧
     ∀ name, name ≠ "message" → collection d' name = collection d name).
Proof.
  destruct (contact_submit_cases EmailStr payload db)
    as [[e ->]|(d & addr & -> & Hon & He & ->)]; simpl; [by left|].
  right. split; [done|]. eexists d, _, addr. repeat split; try done.
  - by rewrite collection_insert_one, decide_True.
  - intros name Hne. by rewrite collection_insert_one, decide_False.
Qed.

Lemma seed_loop_appends ps : ∀ n db r o',
  seed_loop ps n (Some db) = (r, o') →
  ∃ db', o' = Some db' ∧ online db' = online db ∧
    (∀ name, collection db name `prefix_of` collection db' name) ∧
    (∀ name, name ≠ "product" → collection db' name = collection db name).
Proof.
  induction ps as [|p ps IH]; intros n db r o'; simpl.
  - intros [= <- <-]. by exists db.
  - destruct (online db) eqn:Hon; [|intros [= <- <-]; by exists db].
    intros (db' & -> & Hon' & Hpre & Hother)%IH.
    exists db'. split; [done|]. split; [by rewrite Hon'|]. split.
    + intros name. etrans; [|apply Hpre].
      rewrite collection_insert_one. case_decide; subst; [|done].
      by apply prefix_app_r.
    + intros name Hne. rewrite Hother, collection_insert_one by done.
      by rewrite decide_False.
Qed.

Lemma seed_appends re_compile db r o' :
  seed re_compile (Some db) = (r, o') →
  ∃ db', o' = Some db' ∧ online db' = online db ∧
    (∀ name, collection db name `prefix_of` collection db' name) ∧
    (∀ name, name ≠ "product" → collection db' name = collection db name).
Proof.
  unfold seed. destruct (count_documents re_compile db "product" ∅) as [e|count].
  { intros [= <- <-]. by exists db. }
  destruct (0 <? count)%nat; [intros [= <- <-]; by exists db|].
  apply seed_loop_appends.
Qed.

(** X13: neither write route removes, changes or reorders a stored document:
    in every collection, what was stored before [seed] or [contact_submit]
    is a prefix of what is stored after it. *)
Theorem writes_only_append re_compile EmailStr payload db name :
  (∀ db', (seed re_compile (Some db)).2 = Some db' →
     collection db name `prefix_of` collection db' name) ∧
  (∀ db', (contact_submit EmailStr payload (Some db)).2 = Some db' →
     collection db name `prefix_of` collection db' name).
Proof.
  split; intros db' Hdb'.
  - destruct (seed re_compile (Some db)) as [r o'] eqn:Hseed.
    apply seed_appends in Hseed as (d & -> & _ & Hpre & _).
    simpl in Hdb'. injection Hdb' as <-. apply Hpre.
  - destruct (contact_submit_cases EmailStr payload (Some db))
      as [[e He]|(d & addr & [= <-] & _ & _ & He)]; rewrite He in Hdb';
      simpl in Hdb'; injection Hdb' as <-; [done|].
    rewrite collection_insert_one. case_decide; subst; [|done].
    by apply prefix_app_r.
Qed.

Lemma writes_only_append_witness :
  let db := mkDatabase ∅ true 0 in
  ∃ db', (seed wildcard_compile (Some db)).2 = Some db' ∧
    collection db "product" `prefix_of` collection db' "product".
Proof.
  intros db.
  destruct (seed wildcard_compile (Some db)) as [r [db'|]] eqn:Hseed; cycle 1.
  { apply seed_appends in Hseed as (? & [=] & _). }
  exists db'. split; [reflexivity|].
  apply (proj1 (writes_only_append wildcard_compile at_EmailStr
                  (ContactIn.mk "Ada" "ada@example.org" "Hello" "A question")
                  db "product")).
  by rewrite Hseed.
Defined.

(** X15: a contact submission changes no listing, and seeding changes no
    blog listing: the product and blog routes answer after the write what
    they answered before it. *)
Theorem writes_leave_listings str_other re_compile EmailStr payload db category q :
  list_products str_other re_compile (contact_submit EmailStr payload db).2 category q
    = list_products str_other re_compile db category q ∧
  list_blog str_other re_compile (contact_submit EmailStr payload db).2 category
    = list_blog str_other re_compile db category ∧
  list_blog str_other re_compile (seed re_compile db).2 category
    = list_blog str_other re_compile db category.
Proof.
  split; [|split].
  - destruct (contact_submit_cases EmailStr payload db)
      as [[e ->]|(d & addr & -> & _ & _ & ->)]; [done|]. simpl.
    apply list_products_ext; [done|].
    by rewrite collection_insert_one, decide_False.
  - destruct (contact_submit_cases EmailStr payload db)
      as [[e ->]|(d & addr & -> & _ & _ & ->)]; [done|]. simpl.
    apply list_blog_ext; [done|].
    by rewrite collection_insert_one, decide_False.
  - destruct db as [db|]; [|done].
    destruct (seed re_compile (Some db)) as [r o'] eqn:Hseed.
    apply seed_appends in Hseed as (d & -> & Hon & _ & Hother). simpl.
    apply list_blog_ext; [done|]. by apply Hother.
Qed.

(** X16: after seeding a reachable store whose product collection was
    empty, the unfiltered product listing is exactly the three demo
    products, in the order of the source. *)
Theorem seed_then_list_products str_other re_compile db :
  online db = true →
  collection db "product" = [] →
  ∃ stored,
    list_products str_other re_compile (seed re_compile (Some db)).2 None None
      = Ok (returned str_other <$> stored) ∧
    data <$> stored = MProduct <$> demo_products.
Proof.
  intros Hon Hempty.
  destruct (seed_loop_inserts demo_products 0 db Hon)
    as (db' & Hloop & Hon' & Hdata & _).
  assert (Hseed : seed re_compile (Some db)
                  = (Ok {["inserted" := VInt (0 + Z.of_nat (length demo_products))]},
                     Some db')).
  { unfold seed. by rewrite count_documents_all, Hempty. }
  rewrite Hseed. cbn [snd]. rewrite Hempty in Hdata. simpl in Hdata.
  exists (collection db' "product"). split; [|done].
  rewrite (list_products_online str_other re_compile db' None None (λ _, true))
    by done.
  do 2 f_equal.
  destruct (collection db' "product") as [|[i1 m1] [|[i2 m2] [|[i3 m3] [|? ?]]]];
    try done.
  simpl in Hdata. injection Hdata as -> -> ->. reflexivity.
Qed.

Lemma seed_then_list_products_witness :
  let db := mkDatabase ∅ true 0 in
  online db = true ∧ collection db "product" = [] ∧
  ∃ stored,
    list_products str_scalar wildcard_compile
      (seed wildcard_compile (Some db)).2 None None
      = Ok (returned str_scalar <$> stored) ∧
    data <$> stored = MProduct <$> demo_products.
Proof.
  intros db. split; [reflexivity|]. split; [reflexivity|].
  exact (seed_then_list_products str_scalar wildcard_compile db eq_refl eq_refl).
Defined.

(** ** Checkout, continued *)

Lemma line_items_length currency items lis :
  line_items currency items = inr lis → length lis = length items.
Proof.
  revert lis. induction items as [|i items IH]; simpl; intros lis.
  - by intros [= <-].
  - destruct (line_item currency i); [done|].
    destruct (line_items currency items) as [|lis']; [done|].
    intros [= <-]. simpl. by rewrite (IH lis').
Qed.

(** With a credential, the route is the conversion of the cart followed by
    one call of the processor. *)
Lemma checkout_with_credential stripe_backend environ payload stripe secret :
  environ !! "STRIPE_SECRET_KEY" = Some secret → secret ≠ "" →
  create_checkout_session stripe_backend environ payload stripe =
    match line_items (CheckoutIn.currency payload) (CheckoutIn.items payload) with
    | inl e => (HTTPException 500 e, stripe)
    | inr lis =>
        let params := mkParams "payment" lis (CheckoutIn.success_url payload)
                        (CheckoutIn.cancel_url payload) in
        match stripe_backend secret params stripe with
        | inl e => (HTTPException 500 e, stripe)
        | inr session =>
            (Ok (<["url" := VStr (session_url session)]>
                   {["id" := VStr (session_id session)]}), stripe ++ [params])
        end
    end.
Proof.
  intros Henv Hsecret. unfold create_checkout_session, getenv, Session_create.
  rewrite Henv. destruct secret; [done|]. simpl.
  destruct (line_items _ _); [done|].
  by destruct (stripe_backend _ _ _).
Qed.

(** X17: a checkout request ends in one of two ways.  Either it is answered
    200 with the identifier and URL of a session the processor accepted, and
    exactly one session has been added to the processor's record, in mode
    ["payment"], with the payload's two URLs and one line item per cart
    line; or it is answered 400 or 500 and the processor's record is
    unchanged. *)
Theorem checkout_outcomes stripe_backend environ payload stripe :
  let r := create_checkout_session stripe_backend environ payload stripe in
  ((status r.1 = 400%Z ∨ status r.1 = 500%Z) ∧ r.2 = stripe) ∨
  (∃ secret params session,
     environ !! "STRIPE_SECRET_KEY" = Some secret ∧
     stripe_backend secret params stripe = inr session ∧
     r.1 = Ok (<["url" := VStr (session_url session)]>
                 {["id" := VStr (session_id session)]}) ∧
     r.2 = stripe ++ [params] ∧
     sp_mode params = "payment" ∧
     sp_success_url params = CheckoutIn.success_url payload ∧
     sp_cancel_url params = CheckoutIn.cancel_url payload ∧
     length (sp_line_items params) = length (CheckoutIn.items payload)).
Proof.
  destruct (environ !! "STRIPE_SECRET_KEY") as [secret|] eqn:Henv; cycle 1.
  { left. unfold create_checkout_session, getenv. rewrite Henv. simpl. auto. }
  destruct (decide (secret = "")) as [->|Hsecret].
  { left. unfold create_checkout_session, getenv. rewrite Henv. simpl. auto. }
  rewrite (checkout_with_credential _ _ _ _ secret) by done.
  destruct (line_items _ _) as [e|lis] eqn:Hlis; [left; simpl; auto|]. cbv zeta.
  destruct (stripe_backend _ _ _) as [e|session] eqn:Hbackend; [left; simpl; auto|].
  right. eexists secret, _, session. repeat split; try done.
  simpl. by apply line_items_length in Hlis.
Qed.

(** X18: the route has no guard against an empty cart: with a credential,
    a payload without items is sent to the processor as a session request
    with no line item, and the processor's verdict decides the answer. *)
Theorem checkout_empty_cart stripe_backend environ payload stripe secret :
  environ !! "STRIPE_SECRET_KEY" = Some secret → secret ≠ "" →
  CheckoutIn.items payload = [] →
  create_checkout_session stripe_backend environ payload stripe =
    let params := mkParams "payment" [] (CheckoutIn.success_url payload)
                    (CheckoutIn.cancel_url payload) in
    match stripe_backend secret params stripe with
    | inl e => (HTTPException 500 e, stripe)
    | inr session =>
        (Ok (<["url" := VStr (session_url session)]>
               {["id" := VStr (session_id session)]}), stripe ++ [params])
    end.
Proof.
  intros Henv Hsecret Hitems.
  rewrite (checkout_with_credential _ _ _ _ secret) by done.
  by rewrite Hitems.
Qed.

Lemma checkout_empty_cart_witness :
  let environ : gmap string string := {["STRIPE_SECRET_KEY" := "sk_test_1"]} in
  let payload := CheckoutIn.mk [] "eur" "https://shop/ok" "https://shop/cancel" in
  environ !! "STRIPE_SECRET_KEY" = Some "sk_test_1" ∧ "sk_test_1" ≠ "" ∧
  CheckoutIn.items payload = [] ∧
  (create_checkout_session accepting_backend environ payload []).2
    = [mkParams "payment" [] "https://shop/ok" "https://shop/cancel"].
Proof.
  intros environ payload.
  assert (H1 : environ !! "STRIPE_SECRET_KEY" = Some "sk_test_1") by reflexivity.
  assert (H2 : "sk_test_1" ≠ "") by discriminate.
  split; [exact H1|]. split; [exact H2|]. split; [reflexivity|].
  rewrite (checkout_empty_cart accepting_backend environ payload [] _ H1 H2 eq_refl).
  reflexivity.
Defined.

(** X19: a line item has the two keys ["price_data"] and ["quantity"]; its
    product data carries the cart line's title as ["name"], and an
    ["images"] list holding the line's image exactly when that image is a
    non-empty string, no ["images"] key at all otherwise. *)
Theorem line_item_product_data currency i li :
  line_item currency i = inr li →
  dom li = {["price_data"; "quantity"]} ∧
  ∃ price_data product_data : document,
    li !! "price_data" = Some (VDoc price_data) ∧
    price_data !! "product_data" = Some (VDoc product_data) ∧
    product_data !! "name" = Some (VStr (CartItem.title i)) ∧
    product_data !! "images" =
      match CartItem.image i with
      | Some (String c img) => Some (VList [VStr (String c img)])
      | _ => None
      end.
Proof.
  unfold line_item. destruct (py_round _) as [e|n]; [done|]. intros [= <-].
  split. { rewrite dom_insert_L, dom_singleton_L. set_solver. }
  eexists _, _. split. { by rewrite lookup_insert_ne, lookup_singleton_eq. }
  split. { by rewrite lookup_insert_ne, lookup_insert_eq. }
  destruct (CartItem.image i) as [[|c img]|]; simpl; split;
    rewrite lookup_union, ?lookup_singleton_eq, ?lookup_empty;
    rewrite ?lookup_singleton_ne by done; done.
Qed.

Lemma line_item_product_data_witness :
  let i := CartItem.mk "p1" "SEYA Tee" 2 19.99 (Some "https://img/tee.png") in
  ∃ li, line_item "eur" i = inr li ∧ dom li = {["price_data"; "quantity"]}.
Proof.
  intros i. destruct (line_item "eur" i) as [e|li] eqn:Hli.
  - exfalso. vm_compute in Hli. discriminate.
  - exists li. split; [reflexivity|].
    exact (proj1 (line_item_product_data "eur" i li Hli)).
Defined.

(** ** Diagnostics *)

Lemma str_take_len n s : str_len (str_take n s) ≤ n.
Proof.
  revert n. induction s as [|c s IH]; intros n; simpl; [lia|].
  destruct (is_continuation c) eqn:Hc; simpl; rewrite ?Hc; [apply IH|].
  destruct n as [|n]; simpl; rewrite ?Hc; [lia|].
  specialize (IH n). lia.
Qed.

Lemma str_take_all n s : str_len s ≤ n → str_take n s = s.
Proof.
  revert n. induction s as [|c s IH]; intros n; simpl; [done|].
  destruct (is_continuation c); [intros ?; by rewrite IH|].
  destruct n as [|n]; [lia|]. intros ?. rewrite IH; [done|lia].
Qed.

(** X20: the diagnostic route cannot fail: in every state of the handle,
    the store and the environment it returns a response with the same five
    keys, and the response says that the backend is running. *)
Theorem test_database_always_reports Database_name server_error environ db :
  let response := test_database Database_name server_error environ db in
  dom response =
    {["backend"; "database"; "database_url"; "database_name"; "collections"]} ∧
  response !! "backend" = Some (VStr "✅ Running").
Proof.
  unfold test_database, list_collection_names.
  destruct db as [db|]; [destruct (online db)|]; simpl; split;
    rewrite ?dom_insert_L, ?dom_singleton_L; try set_solver;
    by rewrite ?lookup_insert_ne, ?lookup_singleton_eq.
Qed.

(** X21: when the server does not answer, the report keeps what was written
    before the failure: the URL flag and the database name are filled in and
    [collections] stays empty, while ["database"] shows the error, cut after
    its first 80 characters (whole when it has no more than 80). *)
Theorem test_database_unreachable Database_name server_error environ db :
  online db = false →
  let response := test_database Database_name server_error environ (Some db) in
  ∃ shown,
    response !! "database" = Some (VStr ("⚠️ Error: " +:+ shown)) ∧
    shown = str_take 80 (server_error db) ∧
    str_len shown ≤ 80 ∧
    (str_len (server_error db) ≤ 80 → shown = server_error db) ∧
    response !! "database_name"
      = Some (VStr (default "Unknown" (Database_name db))) ∧
    response !! "database_url"
      = Some (VStr (if truthy (environ !! "DATABASE_URL")
                    then "✅ Set" else "❌ Not Set")) ∧
    response !! "collections" = Some (VList []).
Proof.
  intros Hoff. unfold test_database, list_collection_names, getenv.
  rewrite Hoff. cbn -[str_take str_len]. eexists.
  split; [by rewrite lookup_insert_eq|].
  split; [done|]. split; [apply str_take_len|]. split; [apply str_take_all|].
  split; [|split].
  - rewrite lookup_insert_ne by done. by rewrite lookup_insert_eq.
  - rewrite !lookup_insert_ne by done. by rewrite lookup_insert_eq.
  - rewrite !lookup_insert_ne by done. by rewrite lookup_insert_eq.
Qed.

Lemma test_database_unreachable_witness :
  let db := mkDatabase ∅ false 0 in
  let response := test_database (λ _, Some "seya") (λ _, "connexion refusée")
                    ∅ (Some db) in
  online db = false ∧
  str_len "connexion refusée" = 17 ∧
  str_take 3 "éàü!" = "éàü" ∧
  ∃ shown,
    response !! "database" = Some (VStr ("⚠️ Error: " +:+ shown)) ∧
    shown = "connexion refusée" ∧
    response !! "database_name" = Some (VStr "seya").
Proof.
  intros db response. split; [reflexivity|]. split; [reflexivity|].
  split; [reflexivity|].
  destruct (test_database_unreachable (λ _, Some "seya") (λ _, "connexion refusée")
              ∅ db eq_refl) as (shown & H1 & H2 & _ & _ & H3 & _).
  exists shown. split; [exact H1|]. split; [exact H2 | exact H3].
Defined.

(** X22: with a handle and a reachable store the report says connected,
    lists exactly the names of the collections of the store, and flags the
    database URL as set exactly when [DATABASE_URL] is a non-empty string;
    without a handle the report is the initial one whatever the environment
    holds. *)
Theorem test_database_connected Database_name server_error environ :
  (∀ db, online db = true →
     let response := test_database Database_name server_error environ (Some db) in
     response !! "database" = Some (VStr "✅ Connected") ∧
     (response !! "database_url" = Some (VStr "✅ Set") ↔
        ∃ url, environ !! "DATABASE_URL" = Some url ∧ url ≠ "") ∧
     ∃ names,
       response !! "collections" = Some (VList (VStr <$> names)) ∧
       NoDup names ∧
       ∀ name, name ∈ names ↔ is_Some (collections db !! name)) ∧
  test_database Database_name server_error environ None =
    test_database Database_name server_error ∅ None.
Proof.
  split; [|done].
  intros db Hon response. subst response.
  unfold test_database, list_collection_names, getenv.
  rewrite Hon. simpl. split; [|split].
  - rewrite !lookup_insert_ne by done. by rewrite lookup_insert_eq.
  - rewrite !lookup_insert_ne by done. rewrite lookup_insert_eq.
    destruct (environ !! "DATABASE_URL") as [[|c url]|]; simpl.
    + split; [done|]. by intros (url & [= <-] & ?).
    + split; [|done]. intros _. by eexists.
    + split; [done|]. by intros (url & [=] & _).
  - eexists. split; [by rewrite lookup_insert_eq|].
    split; [apply NoDup_fst_map_to_list|].
    intros name. rewrite list_elem_of_fmap. split.
    + intros ([k v] & -> & Hkv%elem_of_map_to_list). by eexists.
    + intros [v Hv]. exists (name, v). split; [done|].
      by apply elem_of_map_to_list.
Qed.

Lemma test_database_connected_witness :
  let db := mkDatabase ∅ true 0 in
  let environ : gmap string string := {["DATABASE_URL" := "mongodb://localhost"]} in
  online db = true ∧
  test_database (λ _, Some "seya") (λ _, "connection refused") environ (Some db)
    !! "database" = Some (VStr "✅ Connected").
Proof.
  intros db environ. split; [reflexivity|].
  exact (proj1 (proj1 (test_database_connected (λ _, Some "seya")
                         (λ _, "connection refused") environ) db eq_refl)).
Defined.

(** ** Seeding, continued *)

(** X23: seeding is idempotent on the store: in every state (no handle,
    unreachable store, empty or non-empty product collection) a second call
    of [seed] leaves the store exactly as the first call left it. *)
Theorem seed_idempotent re_compile db :
  (seed re_compile (seed re_compile db).2).2 = (seed re_compile db).2.
Proof.
  destruct db as [db|]; [|done].
  destruct (online db) eqn:Hon; cycle 1.
  { assert (seed re_compile (Some db)
            = (Unhandled "ServerSelectionTimeoutError", Some db))
      as Hs by (unfold seed, count_documents; by rewrite fetch_offline).
    rewrite Hs. cbn [snd]. by rewrite Hs. }
  assert (Hfull : ∀ d, online d = true → collection d "product" ≠ [] →
            (seed re_compile (Some d)).2 = Some d).
  { intros d Hd Hne. unfold seed. rewrite count_documents_all by done.
    by destruct (collection d "product"). }
  destruct (collection db "product") as [|s l] eqn:Hcoll; cycle 1.
  { assert (Hs : (seed re_compile (Some db)).2 = Some db)
      by (apply Hfull; [done|by rewrite Hcoll]).
    rewrite Hs. exact Hs. }
  destruct (seed_loop_inserts demo_products 0 db Hon)
    as (db' & Hloop & Hon' & Hdata & _).
  assert (Hseed : (seed re_compile (Some db)).2 = Some db').
  { unfold seed. by rewrite count_documents_all, Hcoll, Hloop. }
  rewrite Hseed. apply Hfull; [done|].
  intros Hnil. by rewrite Hnil, Hcoll in Hdata.
Qed.

(** ** Minor units, continued *)

(** X24: the unit amount is determined by the price: for a fraction with a
    positive denominator there is only one nearest integer with ties to
    even, so [int(round(x))] returns [n] exactly when [n] is that integer. *)
Theorem py_round_unique x num den n :
  float_fraction x = Some (num, den) →
  (0 < den)%Z ∧ (py_round x = inr n ↔ nearest_even num den n).
Proof.
  intros Hfrac.
  assert (Hden : (0 < den)%Z).
  { unfold float_fraction in Hfrac.
    destruct (Prim2SF x) as [s|s| |s m e]; try done.
    - by injection Hfrac as <- <-.
    - destruct e; injection Hfrac as <- <-; try done.
      apply Z.pow_pos_nonneg; lia. }
  split; [done|].
  destruct (py_round_nearest x num den Hfrac) as (n' & Hn' & [Hle' Htie']).
  rewrite Hn'. split; [by intros [= <-]|].
  intros [Hle Htie]. f_equal.
  destruct (decide (n' = n)) as [|Hne]; [done|]. exfalso.
  assert (Hboth : (2 * Z.abs (n' * den - num) = den ∧
                   2 * Z.abs (n * den - num) = den)%Z) by nia.
  destruct Hboth as [H1 H2].
  specialize (Htie' H1). specialize (Htie H2).
  assert (Hdiff : (n' = n + 1 ∨ n = n' + 1)%Z) by nia.
  destruct Hdiff as [-> | ->];
    [rewrite Z.even_add, Htie in Htie' | rewrite Z.even_add, Htie' in Htie]; done.
Qed.

Lemma py_round_unique_witness :
  float_fraction (19.99 * 100)%float = Some (8791694975696895, 2 ^ 42)%Z ∧
  py_round (19.99 * 100)%float = inr 1999%Z ∧
  nearest_even 8791694975696895 (2 ^ 42) 1999.
Proof.
  assert (H : float_fraction (19.99 * 100)%float
              = Some (8791694975696895, 2 ^ 42)%Z) by (vm_compute; reflexivity).
  assert (Hr : py_round (19.99 * 100)%float = inr 1999%Z) by (vm_compute; reflexivity).
  split; [exact H|]. split; [exact Hr|].
  exact (proj1 (proj2 (py_round_unique _ _ _ 1999%Z H)) Hr).
Defined.
